(** * Sectionalize: splitting a geometry into monotonic sections

    A shallow embedding of
    [boost/geometry/algorithms/detail/sections/sectionalize.hpp]
    and the properties of the sections it produces.

    Conventions of the embedding.
    - [int] values (indices, ids, direction classes) are [Z].  The only
      arithmetic the code does on them is [index + 1] below the size of the
      range and [ndi + 1] below it as well, so no wrap-around is involved.
    - [std::size_t] values ([count], [range_count], template dimension
      counts) are [nat].
    - The coordinate type is a template parameter of the code.  Coordinate
      values are integers, [Z]; the one arithmetic operation the code does
      on them, the subtraction [get<1, D>(seg) - get<0, D>(seg)] of
      [get_direction_loop] and [check_duplicate_loop], is done in the
      coordinate type and is a parameter, [minus], of the embedding.  It is
      [Z.sub] for an exact type and [int_minus], the difference wrapped to
      32 bits, for [int]; the properties below hold for every [minus]
      unless they say otherwise.
    - Arrays of template-fixed length are lists, read with [nth] and
      written with the list update [<[i:=x]>].
    - Out-parameters ([sections], [section], [index], [ndi]) are passed
      and returned explicitly. *)

From Stdlib Require Import ZArith Lia.
From stdpp Require Import base numbers list.

Set Default Proof Using "Type".

(** ** Points, segments and boxes *)

(** The values of the coordinate type.  Its subtraction is not fixed
    here: see [minus] below. *)
Definition coordinate_type : Type := Z.

(** A point is the sequence of its coordinates. *)
Definition Point : Type := list coordinate_type.

(** [geometry::get<Dimension>(p)] *)
Definition get (Dimension : nat) (p : Point) : coordinate_type :=
  nth Dimension p 0%Z.

(** [model::referring_segment<Point const>] *)
Record segment_type : Type := Segment { first : Point; second : Point }.

(** [geometry::get<Index, Dimension>(seg)] for [Index] 0 and 1. *)
Definition seg_get (Index Dimension : nat) (seg : segment_type) : coordinate_type :=
  match Index with
  | O => get Dimension (first seg)
  | _ => get Dimension (second seg)
  end.

(** The box geometry handed to [sectionalize_box]. *)
Record Box : Type := MkBox { min_corner : Point; max_corner : Point }.

(** The box type stored in a section.  [inverse_box] is the value left by
    [assign_inverse]. *)
Inductive box_type : Type :=
| inverse_box
| corners_box (lo hi : Point).

(** Modelled from the spec: [assign_inverse] (algorithms/assign.hpp is not
    among the source files) sets a box to the inverted/empty sentinel, the
    identity element of the union with a point. *)
Definition assign_inverse : box_type := inverse_box.

(** Modelled from the spec: [combine] (algorithms/combine.hpp is not among
    the source files) is the union [union(box, point) -> box]: it grows the
    box, per dimension of the point type, just enough to contain the point;
    the first union applied to the sentinel defines the box. *)
Definition combine (point_dimension : nat) (b : box_type) (p : Point) : box_type :=
  match b with
  | inverse_box =>
      corners_box (map (fun d => get d p) (seq 0 point_dimension))
                  (map (fun d => get d p) (seq 0 point_dimension))
  | corners_box lo hi =>
      corners_box
        (map (fun d => Z.min (get d lo) (get d p)) (seq 0 point_dimension))
        (map (fun d => Z.max (get d hi) (get d p)) (seq 0 point_dimension))
  end.

(** A point lies within a box when every coordinate is between the
    corners; nothing lies within the inverted sentinel. *)
Definition within_box (point_dimension : nat) (p : Point) (b : box_type) : bool :=
  match b with
  | inverse_box => false
  | corners_box lo hi =>
      forallb (fun d => (get d lo <=? get d p)%Z && (get d p <=? get d hi)%Z)
              (seq 0 point_dimension)
  end.

(** [closure_selector] of core/closure.hpp, the two values the code uses. *)
Inductive closure_selector : Type := open | closed.

(** Modelled from the spec: [closeable_view] (util/closeable_view.hpp is
    not among the source files) is the closing-view adapter.  For a closed
    range it is the range itself; for an open one the first point is
    virtually repeated at the end, so that the last segment connects back
    to the start. *)
Definition closeable_view (Closure : closure_selector) (range : list Point)
  : list Point :=
  match Closure with
  | closed => range
  | open => match range with
            | [] => []
            | p :: _ => range ++ [p]
            end
  end.

(** ** Sections *)

Record section : Type := MkSection {
  id : Z;
  directions : list Z;
  ring_index : Z;
  multi_index : Z;
  bounding_box : box_type;
  begin_index : Z;
  end_index : Z;
  count : nat;
  range_count : nat;
  duplicate : bool;
  non_duplicate_index : Z
}.

(** [struct sections : std::vector<section<Box, DimensionCount> >] *)
Definition Sections : Type := list section.

(** The default constructor [section::section()]. *)
Definition section_type (DimensionCount : nat) : section :=
  {| id := -1;
     directions := replicate DimensionCount 0%Z;
     ring_index := -99;
     multi_index := -99;
     bounding_box := assign_inverse;
     begin_index := -1;
     end_index := -1;
     count := 0;
     range_count := 0;
     duplicate := false;
     non_duplicate_index := -1 |}.

(** ** The per-dimension template loops

    Each loop is a template recursion from [Dimension] up to
    [DimensionCount]; [fuel] is the number of steps left,
    [DimensionCount - Dimension]. *)

(** The subtraction of [int] coordinates: the difference wrapped to 32
    bits, two's complement. *)
Definition int_minus (a b : coordinate_type) : coordinate_type :=
  ((a - b + 2 ^ 31) mod 2 ^ 32 - 2 ^ 31)%Z.

(** [diff > 0 ? 1 : (diff < 0 ? -1 : 0)] *)
Definition direction_sign (diff : coordinate_type) : Z :=
  if (diff >? 0)%Z then 1%Z else if (diff <? 0)%Z then (-1)%Z else 0%Z.

(** [minus] is the subtraction of the coordinate type. *)
Fixpoint get_direction_loop_rec
    (minus : coordinate_type -> coordinate_type -> coordinate_type)
    (seg : segment_type) (fuel Dimension : nat)
    (directions : list Z) : list Z :=
  match fuel with
  | O => directions
  | S fuel' =>
      let diff := minus (seg_get 1 Dimension seg) (seg_get 0 Dimension seg) in
      get_direction_loop_rec minus seg fuel' (S Dimension)
        (<[Dimension := direction_sign diff]> directions)
  end.

Definition get_direction_loop
    (minus : coordinate_type -> coordinate_type -> coordinate_type)
    (seg : segment_type)
    (Dimension DimensionCount : nat) (directions : list Z) : list Z :=
  get_direction_loop_rec minus seg (DimensionCount - Dimension) Dimension
    directions.

Fixpoint copy_loop_rec (fuel Dimension : nat) (source target : list Z) : list Z :=
  match fuel with
  | O => target
  | S fuel' =>
      copy_loop_rec fuel' (S Dimension) source
        (<[Dimension := nth Dimension source 0%Z]> target)
  end.

Definition copy_loop (Dimension DimensionCount : nat)
    (source target : list Z) : list Z :=
  copy_loop_rec (DimensionCount - Dimension) Dimension source target.

Fixpoint compare_loop_rec (fuel Dimension : nat) (source target : list Z) : bool :=
  match fuel with
  | O => true
  | S fuel' =>
      let not_equal :=
        negb (nth Dimension target 0 =? nth Dimension source 0)%Z in
      if not_equal then false
      else compare_loop_rec fuel' (S Dimension) source target
  end.

Definition compare_loop (Dimension DimensionCount : nat)
    (source target : list Z) : bool :=
  compare_loop_rec (DimensionCount - Dimension) Dimension source target.

Fixpoint assign_loop_rec (fuel Dimension : nat) (dims : list Z) (value : Z)
  : list Z :=
  match fuel with
  | O => dims
  | S fuel' => assign_loop_rec fuel' (S Dimension) (<[Dimension := value]> dims) value
  end.

Definition assign_loop (Dimension DimensionCount : nat)
    (dims : list Z) (value : Z) : list Z :=
  assign_loop_rec (DimensionCount - Dimension) Dimension dims value.

(** State threaded through [sectionalize_part::apply]: the four reference
    parameters [sections], [section], [index] and [ndi]. *)
Record part_state : Type := PartState {
  st_sections : Sections;
  st_section : section;
  st_index : Z;
  st_ndi : Z
}.

(** The four kinds of geometry the dispatcher has a specialisation for. *)
Record Ring : Type := MkRing {
  ring_closure : closure_selector;
  ring_points : list Point
}.

Record Polygon : Type := MkPolygon {
  closure : closure_selector;
  exterior_ring : list Point;
  interior_rings : list (list Point)
}.

Inductive Geometry : Type :=
| box_tag (b : Box)
| linestring_tag (ls : list Point)
| ring_tag (r : Ring)
| polygon_tag (p : Polygon).

Section Sectionalize.

(** The subtraction of the coordinate type. *)
Variable minus : coordinate_type -> coordinate_type -> coordinate_type.

(** [geometry::math::equals], the tolerance-aware equality of
    util/math.hpp, which is not among the source files. *)
Variable equals : coordinate_type -> coordinate_type -> bool.

(** [geometry::dimension<Point>::type::value] *)
Variable point_dimension : nat.

(** Template parameters [DimensionCount] and [MaxCount]. *)
Variable DimensionCount : nat.
Variable MaxCount : nat.

Fixpoint check_duplicate_loop_rec (seg : segment_type) (fuel Dimension : nat)
  : bool :=
  match fuel with
  | O => true
  | S fuel' =>
      let diff := minus (seg_get 1 Dimension seg) (seg_get 0 Dimension seg) in
      if negb (equals diff 0%Z) then false
      else check_duplicate_loop_rec seg fuel' (S Dimension)
  end.

Definition check_duplicate_loop (seg : segment_type)
    (Dimension DimensionCount' : nat) : bool :=
  check_duplicate_loop_rec seg (DimensionCount' - Dimension) Dimension.

(** Lines 271-303 of the loop body: the direction classes of a segment
    and its duplicate flag, with the classes overwritten by -99 for a
    duplicate. *)
Definition segment_classes (seg : segment_type) : bool * list Z :=
  let direction_classes :=
    get_direction_loop minus seg 0 DimensionCount (replicate DimensionCount 0%Z) in
  if (nth 0 direction_classes 0 =? 0)%Z then
    if check_duplicate_loop seg 0 point_dimension then
      (true, assign_loop 0 DimensionCount direction_classes (-99))
    else (false, direction_classes)
  else (false, direction_classes).

(** Lines 305-312: the condition under which the section in progress is
    pushed before the segment is added. *)
Definition flush_condition (sec : section) (direction_classes : list Z) : bool :=
  (0 <? count sec)
  && (negb (compare_loop 0 DimensionCount direction_classes (directions sec))
      || (MaxCount <? count sec)).

(** Lines 320-331: the bookkeeping done when the section in progress is
    still empty. *)
Definition begin_section (range_size : nat) (ring_index' multi_index' : Z)
    (index ndi : Z) (duplicate' : bool) (direction_classes : list Z)
    (previous : Point) (sec : section) : section :=
  {| id := id sec;
     directions := copy_loop 0 DimensionCount direction_classes (directions sec);
     ring_index := ring_index';
     multi_index := multi_index';
     bounding_box := combine point_dimension (bounding_box sec) previous;
     begin_index := index;
     end_index := end_index sec;
     count := count sec;
     range_count := range_size;
     duplicate := duplicate';
     non_duplicate_index := ndi |}.

(** Lines 334-336: the segment ending in [it] is added to the section. *)
Definition add_segment (index : Z) (it : Point) (sec : section) : section :=
  {| id := id sec;
     directions := directions sec;
     ring_index := ring_index sec;
     multi_index := multi_index sec;
     bounding_box := combine point_dimension (bounding_box sec) it;
     begin_index := begin_index sec;
     end_index := index + 1;
     count := S (count sec);
     range_count := range_count sec;
     duplicate := duplicate sec;
     non_duplicate_index := non_duplicate_index sec |}.

(** One iteration of the loop of [sectionalize_part::apply], together
    with the [index++] of the loop header. *)
Definition part_step (range_size : nat) (ring_index' multi_index' : Z)
    (previous it : Point) (st : part_state) : part_state :=
  let index := st_index st in
  let ndi := st_ndi st in
  let '(duplicate', direction_classes) := segment_classes (Segment previous it) in
  let '(sections, sec) :=
    if flush_condition (st_section st) direction_classes
    then (st_sections st ++ [st_section st], section_type DimensionCount)
    else (st_sections st, st_section st) in
  let sec :=
    if (count sec =? 0)
    then begin_section range_size ring_index' multi_index' index ndi
           duplicate' direction_classes previous sec
    else sec in
  let sec := add_segment index it sec in
  {| st_sections := sections;
     st_section := sec;
     st_index := index + 1;
     st_ndi := if duplicate' then ndi else (ndi + 1)%Z |}.

(** The [for] loop: [previous] is the point before the iterator, [rest]
    the points from the iterator to the end of the range. *)
Fixpoint part_loop (range_size : nat) (ring_index' multi_index' : Z)
    (previous : Point) (rest : list Point) (st : part_state) : part_state :=
  match rest with
  | [] => st
  | it :: rest' =>
      part_loop range_size ring_index' multi_index' it rest'
        (part_step range_size ring_index' multi_index' previous it st)
  end.

(** [sectionalize_part::apply].  The iterator is advanced by [index],
    which the guard has shown to be below the size of the range. *)
Definition sectionalize_part (st : part_state) (range : list Point)
    (ring_index' multi_index' : Z) : part_state :=
  if (Z.of_nat (length range) <=? st_index st)%Z then st
  else
    let ndi := if (st_index st =? 0)%Z then 0%Z else st_ndi st in
    match drop (Z.to_nat (st_index st)) range with
    | [] => st
    | previous :: rest =>
        part_loop (length range) ring_index' multi_index' previous rest
          {| st_sections := st_sections st;
             st_section := st_section st;
             st_index := st_index st;
             st_ndi := ndi |}
    end.

(** [sectionalize_range::apply] *)
Definition sectionalize_range (Closure : closure_selector)
    (range : list Point) (sections : Sections)
    (ring_index' multi_index' : Z) : Sections :=
  let view := closeable_view Closure range in
  let n := length view in
  if n =? 0 then sections
  else if n =? 1 then sections
  else
    let st :=
      sectionalize_part
        {| st_sections := sections;
           st_section := section_type DimensionCount;
           st_index := 0;
           st_ndi := 0 |}
        view ring_index' multi_index' in
    if 0 <? count (st_section st)
    then st_sections st ++ [st_section st]
    else st_sections st.

(** The loop over the interior rings of [sectionalize_polygon::apply]. *)
Fixpoint interior_loop (Closure : closure_selector) (i : Z)
    (rings : list (list Point)) (sections : Sections) (multi_index' : Z)
  : Sections :=
  match rings with
  | [] => sections
  | r :: rings' =>
      interior_loop Closure (i + 1) rings'
        (sectionalize_range Closure r sections i multi_index') multi_index'
  end.

(** [sectionalize_polygon::apply] *)
Definition sectionalize_polygon (poly : Polygon) (sections : Sections)
    (multi_index' : Z) : Sections :=
  let sections :=
    sectionalize_range (closure poly) (exterior_ring poly) sections (-1)
      multi_index' in
  interior_loop (closure poly) 0 (interior_rings poly) sections multi_index'.

(** Modelled from the spec: [assign_box_corners] (algorithms/assign.hpp
    is not among the source files) yields the four corners of a 2D box:
    lower-left, lower-right, upper-left, upper-right. *)
Definition assign_box_corners (b : Box) : Point * Point * Point * Point :=
  let ll := [get 0 (min_corner b); get 1 (min_corner b)] in
  let lr := [get 0 (max_corner b); get 1 (min_corner b)] in
  let ul := [get 0 (min_corner b); get 1 (max_corner b)] in
  let ur := [get 0 (max_corner b); get 1 (max_corner b)] in
  (ll, lr, ul, ur).

(** The five points [sectionalize_box::apply] pushes into [points]. *)
Definition box_points (b : Box) : list Point :=
  let '(ll, lr, ul, ur) := assign_box_corners b in
  [ll; ul; ur; lr; ll].

(** [sectionalize_box::apply]; [ring_index] and [multi_index] take
    their default value -1. *)
Definition sectionalize_box (b : Box) (sections : Sections) : Sections :=
  sectionalize_range closed (box_points b) sections (-1) (-1).

(** The assignment [it->id = index]. *)
Definition set_id (index : Z) (s : section) : section :=
  {| id := index;
     directions := directions s;
     ring_index := ring_index s;
     multi_index := multi_index s;
     bounding_box := bounding_box s;
     begin_index := begin_index s;
     end_index := end_index s;
     count := count s;
     range_count := range_count s;
     duplicate := duplicate s;
     non_duplicate_index := non_duplicate_index s |}.

(** [set_section_unique_ids]: the loop, with its counter [index]. *)
Fixpoint set_ids_loop (index : Z) (sections : Sections) : Sections :=
  match sections with
  | [] => []
  | s :: rest => set_id index s :: set_ids_loop (index + 1) rest
  end.

Definition set_section_unique_ids (sections : Sections) : Sections :=
  set_ids_loop 0 sections.

(** [dispatch::sectionalize<Tag, ...>::apply], one case per
    specialisation. *)
Definition dispatch_sectionalize (geometry : Geometry) (sections : Sections)
  : Sections :=
  match geometry with
  | box_tag b => sectionalize_box b sections
  | linestring_tag ls => sectionalize_range closed ls sections (-1) (-1)
  | ring_tag r =>
      sectionalize_range (ring_closure r) (ring_points r) sections (-1) (-1)
  | polygon_tag p => sectionalize_polygon p sections (-1)
  end.

End Sectionalize.

(** A maximum of 10 segments per section. *)
Definition max_segments_per_section : nat := 10.

(** The free function [sectionalize(geometry, sections)].  [sections] is
    the caller's collection on entry; [DimensionCount] is [Sections::value]. *)
Definition sectionalize
    (minus : coordinate_type -> coordinate_type -> coordinate_type)
    (equals : coordinate_type -> coordinate_type -> bool)
    (point_dimension DimensionCount : nat)
    (geometry : Geometry) (sections : Sections) : Sections :=
  let sections : Sections := [] in
  let sections :=
    dispatch_sectionalize minus equals point_dimension DimensionCount
      max_segments_per_section geometry sections in
  set_section_unique_ids sections.

(** * Specification vocabulary

    The definitions below are not part of the code; they are what the
    properties of the code are stated with. *)

(** The coordinate difference of a segment along one dimension, as the
    coordinate type computes it. *)
Definition seg_diff
    (minus : coordinate_type -> coordinate_type -> coordinate_type)
    (seg : segment_type) (d : nat) : coordinate_type :=
  minus (seg_get 1 d seg) (seg_get 0 d seg).

(** The output of the direction classifier: one sign per tracked
    dimension. *)
Definition direction_vector
    (minus : coordinate_type -> coordinate_type -> coordinate_type)
    (DimensionCount : nat) (seg : segment_type) : list Z :=
  map (fun d => direction_sign (seg_diff minus seg d)) (seq 0 DimensionCount).

(** The duplicate detector in closed form: every coordinate difference
    over the dimensions of the point type is [equals] to zero. *)
Definition is_duplicate
    (minus : coordinate_type -> coordinate_type -> coordinate_type)
    (equals : coordinate_type -> coordinate_type -> bool)
    (point_dimension : nat) (seg : segment_type) : bool :=
  forallb (fun d => equals (seg_diff minus seg d) 0%Z) (seq 0 point_dimension).

(** The point at position [j] of a range, and the segment from position
    [j] to position [j + 1]. *)
Definition point_at (view : list Point) (j : nat) : Point := nth j view [].

Definition segment_at (view : list Point) (j : nat) : segment_type :=
  Segment (point_at view j) (point_at view (S j)).

(** The state of the builder when the collection already held [ss0]. *)
Definition prepend (ss0 : Sections) (st : part_state) : part_state :=
  {| st_sections := ss0 ++ st_sections st;
     st_section := st_section st;
     st_index := st_index st;
     st_ndi := st_ndi st |}.

(** The sections [sectionalize_range::apply] appends to the collection it
    is given. *)
Definition produced_sections
    (minus : coordinate_type -> coordinate_type -> coordinate_type)
    (equals : coordinate_type -> coordinate_type -> bool)
    (point_dimension DimensionCount MaxCount : nat)
    (Closure : closure_selector) (range : list Point) (sections : Sections)
    (ring_index' multi_index' : Z) : Sections :=
  drop (length sections)
    (sectionalize_range minus equals point_dimension DimensionCount MaxCount
       Closure range sections ring_index' multi_index').

(** The number of segments of a range of [N] points: [N - 1], or [N] when
    the closing point is appended. *)
Definition segment_total (Closure : closure_selector) (range : list Point) : Z :=
  match Closure with
  | closed => (Z.of_nat (length range) - 1)%Z
  | open => Z.of_nat (length range)
  end.

(** What every pushed section looks like, whatever the range it was cut
    from. *)
Record well_formed (DimensionCount MaxCount : nat) (s : section) : Prop :=
  WellFormed {
    wf_count : 1 <= count s <= S MaxCount;
    wf_begin : (0 <= begin_index s)%Z;
    wf_end : (end_index s - begin_index s = Z.of_nat (count s))%Z;
    wf_length : length (directions s) = DimensionCount;
    wf_regular : duplicate s = false ->
      forall x, x ∈ directions s -> x = (-1)%Z \/ x = 0%Z \/ x = 1%Z;
    wf_duplicate : duplicate s = true ->
      directions s = replicate DimensionCount (-99)%Z
  }.

(** The reading of "each entry of [directions] is in {-1, 0, 1}" over a
    collection of sections. *)
Definition directions_are_signs (sections : Sections) : Prop :=
  forall s, s ∈ sections ->
    forall x, x ∈ directions s -> x = (-1)%Z \/ x = 0%Z \/ x = 1%Z.

(** The duplicate flag the loop body computes for segment [j] of a view. *)
Definition duplicate_segment
    (minus : coordinate_type -> coordinate_type -> coordinate_type)
    (equals : coordinate_type -> coordinate_type -> bool)
    (point_dimension DimensionCount : nat) (view : list Point) (j : nat) : bool :=
  fst (segment_classes minus equals point_dimension DimensionCount (segment_at view j)).

(** The reading of "two consecutive duplicate segments end up in the same
    section": segments [j] and [j + 1] of the view both lie in one section
    of the collection. *)
Definition consecutive_duplicates_share_section
    (minus : coordinate_type -> coordinate_type -> coordinate_type)
    (equals : coordinate_type -> coordinate_type -> bool)
    (point_dimension DimensionCount : nat)
    (view : list Point) (sections : Sections) : Prop :=
  forall j, S (S j) < length view ->
    duplicate_segment minus equals point_dimension DimensionCount view j = true ->
    duplicate_segment minus equals point_dimension DimensionCount view (S j) = true ->
    exists s, s ∈ sections
      /\ (begin_index s <= Z.of_nat j)%Z /\ (Z.of_nat j + 2 <= end_index s)%Z.

(** The ranges a geometry is made of, each with its closure and its
    [ring_index]: the interior rings of a polygon are numbered from [i]. *)
Fixpoint numbered_rings (Closure : closure_selector) (i : Z)
    (rings : list (list Point)) : list (closure_selector * list Point * Z) :=
  match rings with
  | [] => []
  | r :: rings' => (Closure, r, i) :: numbered_rings Closure (i + 1) rings'
  end.

Definition rings_of (geometry : Geometry)
  : list (closure_selector * list Point * Z) :=
  match geometry with
  | box_tag b => [(closed, box_points b, (-1)%Z)]
  | linestring_tag ls => [(closed, ls, (-1)%Z)]
  | ring_tag r => [(ring_closure r, ring_points r, (-1)%Z)]
  | polygon_tag p =>
      (closure p, exterior_ring p, (-1)%Z)
      :: numbered_rings (closure p) 0 (interior_rings p)
  end.




(** An instance of [equals] with a tolerance, as [math::equals] has one
    for floating-point coordinate types: two values are equal when they
    differ by one unit at most. *)
Definition tolerant_equals (a b : coordinate_type) : bool :=
  (Z.abs (a - b) <=? 1)%Z.

(** The ring of the box with lower-left corner [(x0, y0)] and upper-right
    corner [(x1, y1)]: lower-left, upper-left, upper-right, lower-right,
    lower-left. *)
Definition box_ring (x0 y0 x1 y1 : Z) : list Point :=
  [[x0; y0]; [x0; y1]; [x1; y1]; [x1; y0]; [x0; y0]].

(** ** Sample geometries *)


(** The box with corners (0,0) and (10,1): its height is within the
    tolerance of [tolerant_equals]. *)
Definition thin_box : Box := MkBox [0; 0]%Z [10; 1]%Z.

(** The least and the greatest [int]. *)
Definition INT_MIN : coordinate_type := (- 2 ^ 31)%Z.
Definition INT_MAX : coordinate_type := (2 ^ 31 - 1)%Z.

(** The closed square ring (0,0), (0,10), (10,10), (10,0), (0,0). *)
Definition square : list Point :=
  [[0; 0]; [0; 10]; [10; 10]; [10; 0]; [0; 0]]%Z.

(** Thirteen points on a straight line: twelve segments of one direction. *)
Definition straight_line : list Point :=
  map (fun i => [Z.of_nat i; 0%Z]) (seq 0 13).

(** Two coincident points: one zero-length segment. *)
Definition coincident_pair : list Point := [[1; 1]; [1; 1]]%Z.

(** Thirteen coincident points: twelve zero-length segments. *)
Definition coincident_run : list Point := replicate 13 [1; 1]%Z.

(** ** Vocabulary for further properties *)

(** The number of segments held by a collection of sections. *)
Definition total_count (sections : Sections) : nat :=
  foldr (fun s n => count s + n) 0 sections.

(** A section, and a builder state, with [range_count] left out of the
    comparison. *)
Definition forget_range_count (s : section) : section :=
  {| id := id s;
     directions := directions s;
     ring_index := ring_index s;
     multi_index := multi_index s;
     bounding_box := bounding_box s;
     begin_index := begin_index s;
     end_index := end_index s;
     count := count s;
     range_count := 0;
     duplicate := duplicate s;
     non_duplicate_index := non_duplicate_index s |}.

Definition forget_range_counts (st : part_state) : part_state :=
  {| st_sections := map forget_range_count (st_sections st);
     st_section := forget_range_count (st_section st);
     st_index := st_index st;
     st_ndi := st_ndi st |}.

(** A section with another [range_count]. *)
Definition set_range_count (n : nat) (s : section) : section :=
  {| id := id s;
     directions := directions s;
     ring_index := ring_index s;
     multi_index := multi_index s;
     bounding_box := bounding_box s;
     begin_index := begin_index s;
     end_index := end_index s;
     count := count s;
     range_count := n;
     duplicate := duplicate s;
     non_duplicate_index := non_duplicate_index s |}.

(** [retag lo hi n s]: the section [s] with [range_count] [n] if it
    begins at a segment index from [lo] up to, not including, [hi], and
    [s] itself otherwise. *)
Definition retag (lo hi : Z) (n : nat) (s : section) : section :=
  if ((lo <=? begin_index s) && (begin_index s <? hi))%Z
  then set_range_count n s else s.

(** A builder state whose sections after the first [m], and whose section
    in progress, are retagged. *)
Definition retag_state (m : nat) (lo hi : Z) (n : nat) (st : part_state)
  : part_state :=
  {| st_sections := take m (st_sections st)
                    ++ map (retag lo hi n) (drop m (st_sections st));
     st_section := retag lo hi n (st_section st);
     st_index := st_index st;
     st_ndi := st_ndi st |}.

(** The number of segments of one range of a geometry, seen through its
    closing view, and of a whole geometry. *)
Definition ring_segments (r : closure_selector * list Point * Z) : nat :=
  length (closeable_view r.1.1 r.1.2) - 1.

Definition geometry_segments (geometry : Geometry) : nat :=
  foldr (fun r n => ring_segments r + n) 0 (rings_of geometry).

(** The subtraction of the coordinate type tells equal coordinates of
    the points [p] and [q] from different ones: in every dimension of the
    point type the computed difference is zero exactly when the two
    coordinates are equal.  This holds of every pair of points for
    [Z.sub], and for [int_minus] when the coordinates are in the range of
    [int]. *)
Definition separates
    (minus : coordinate_type -> coordinate_type -> coordinate_type)
    (point_dimension : nat) (p q : Point) : Prop :=
  forall d, d < point_dimension ->
    minus (get d p) (get d p) = 0%Z
    /\ (minus (get d q) (get d p) = 0%Z <-> get d p = get d q)
    /\ (minus (get d p) (get d q) = 0%Z <-> get d p = get d q).

(** A point moved by the vector [v], in the dimensions of the point type. *)
Definition translate (point_dimension : nat) (v p : Point) : Point :=
  map (fun d => (get d p + get d v)%Z) (seq 0 point_dimension).

(** A section, and a builder state, with the bounding box left out of the
    comparison. *)
Definition forget_box (s : section) : section :=
  {| id := id s;
     directions := directions s;
     ring_index := ring_index s;
     multi_index := multi_index s;
     bounding_box := assign_inverse;
     begin_index := begin_index s;
     end_index := end_index s;
     count := count s;
     range_count := range_count s;
     duplicate := duplicate s;
     non_duplicate_index := non_duplicate_index s |}.

Definition forget_boxes (st : part_state) : part_state :=
  {| st_sections := map forget_box (st_sections st);
     st_section := forget_box (st_section st);
     st_index := st_index st;
     st_ndi := st_ndi st |}.

Section Tiling.

Variable minus : coordinate_type -> coordinate_type -> coordinate_type.
Variable equals : coordinate_type -> coordinate_type -> bool.
Variable point_dimension : nat.
Variable DimensionCount : nat.
Variable MaxCount : nat.
Variable view : list Point.
Variables ring_index' multi_index' : Z.

Abbreviation classes := (segment_classes minus equals point_dimension DimensionCount).

(** Number of non-duplicate segments among the first [k] of the view. *)
Definition non_duplicates (k : nat) : nat :=
  length (filter (fun j => fst (classes (segment_at view j)) = false) (seq 0 k)).

(** [covers s b e]: the section [s] holds exactly the segments
    [b], ..., [e - 1] of the view. *)
Record covers (s : section) (b e : nat) : Prop := Covers {
  cov_begin : begin_index s = Z.of_nat b;
  cov_end : end_index s = Z.of_nat e;
  cov_nonempty : b < e;
  cov_inside : e < length view;
  cov_count : count s = e - b;
  cov_max : count s <= S MaxCount;
  cov_first : classes (segment_at view b) = (duplicate s, directions s);
  cov_classes : forall j, b <= j < e ->
    snd (classes (segment_at view j)) = directions s;
  cov_box : bounding_box s
    = foldl (combine point_dimension) assign_inverse
        (take (S (e - b)) (drop b view));
  cov_ring : ring_index s = ring_index';
  cov_multi : multi_index s = multi_index';
  cov_range : range_count s = length view;
  cov_ndi : non_duplicate_index s = Z.of_nat (non_duplicates b)
}.

(** Why the builder closed section [s] in front of segment [m]. *)
Definition split_reason (s : section) (m : nat) : Prop :=
  snd (classes (segment_at view m)) <> directions s \/ MaxCount < count s.

(** Sections already pushed while the loop runs: they tile the
    segments from [b] to [e], each closed for a reason. *)
Fixpoint pushed (b : nat) (ss : list section) (e : nat) : Prop :=
  match ss with
  | [] => b = e
  | s :: rest => exists m, covers s b m /\ split_reason s m /\ pushed m rest e
  end.

(** The sections of a finished range: they tile the segments from [b]
    to [e]; all but the last were closed for a reason. *)
Fixpoint tiles (b : nat) (ss : list section) (e : nat) : Prop :=
  match ss with
  | [] => b = e
  | s :: rest =>
      exists m, covers s b m /\ (m < e -> split_reason s m) /\ tiles m rest e
  end.

(** The loop invariant of [sectionalize_part::apply] after [k] segments. *)
Definition in_progress (sec : section) (b k : nat) : Prop :=
  (sec = section_type DimensionCount /\ b = k) \/ covers sec b k.

Record part_inv (k : nat) (st : part_state) : Prop := PartInv {
  inv_index : st_index st = Z.of_nat k;
  inv_ndi : st_ndi st = Z.of_nat (non_duplicates k);
  inv_sections : exists b,
    pushed 0 (st_sections st) b /\ in_progress (st_section st) b k
}.

End Tiling.

Arguments cov_begin {_ _ _ _ _ _ _ _ _ _ _} _.
Arguments cov_end {_ _ _ _ _ _ _ _ _ _ _} _.
Arguments cov_nonempty {_ _ _ _ _ _ _ _ _ _ _} _.
Arguments cov_inside {_ _ _ _ _ _ _ _ _ _ _} _.
Arguments cov_count {_ _ _ _ _ _ _ _ _ _ _} _.
Arguments cov_max {_ _ _ _ _ _ _ _ _ _ _} _.
Arguments cov_first {_ _ _ _ _ _ _ _ _ _ _} _.
Arguments cov_classes {_ _ _ _ _ _ _ _ _ _ _} _.
Arguments cov_box {_ _ _ _ _ _ _ _ _ _ _} _.
Arguments cov_ring {_ _ _ _ _ _ _ _ _ _ _} _.
Arguments cov_multi {_ _ _ _ _ _ _ _ _ _ _} _.
Arguments cov_range {_ _ _ _ _ _ _ _ _ _ _} _.
Arguments cov_ndi {_ _ _ _ _ _ _ _ _ _ _} _.

(** * Properties *)

(** ** Closed forms of the per-dimension loops *)

Lemma direction_sign_sgn (diff : Z) : direction_sign diff = Z.sgn diff.
Proof. unfold direction_sign. destruct diff; reflexivity. Qed.

Lemma direction_sign_range (diff : Z) :
  direction_sign diff = (-1)%Z \/ direction_sign diff = 0%Z \/ direction_sign diff = 1%Z.
Proof. rewrite direction_sign_sgn. destruct diff; simpl; auto. Qed.

Lemma take_S_insert {A} (l : list A) (n : nat) (x : A) :
  n < length l -> take (S n) (<[n := x]> l) = take n l ++ [x].
Proof.
  intros Hn. rewrite (take_S_r _ _ x).
  - by rewrite take_insert_ge.
  - by apply list_lookup_insert_eq.
Qed.

Ltac fill_loop_step IH :=
  simpl; rewrite IH; [| rewrite length_insert; lia];
  rewrite take_S_insert; [| lia]; by rewrite <- app_assoc.

Lemma get_direction_loop_rec_spec minus seg fuel : forall Dimension l,
  length l = Dimension + fuel ->
  get_direction_loop_rec minus seg fuel Dimension l
  = take Dimension l
    ++ map (fun d => direction_sign (seg_diff minus seg d)) (seq Dimension fuel).
Proof.
  induction fuel as [| fuel IH]; intros Dimension l Hlen.
  - simpl. rewrite take_ge; [| lia]. by rewrite app_nil_r.
  - fill_loop_step IH.
Qed.

Lemma get_direction_loop_spec minus DimensionCount seg l :
  length l = DimensionCount ->
  get_direction_loop minus seg 0 DimensionCount l
  = direction_vector minus DimensionCount seg.
Proof.
  intros Hlen. unfold get_direction_loop.
  rewrite get_direction_loop_rec_spec; [| lia].
  by rewrite Nat.sub_0_r.
Qed.

Lemma assign_loop_rec_spec value fuel : forall Dimension dims,
  length dims = Dimension + fuel ->
  assign_loop_rec fuel Dimension dims value
  = take Dimension dims ++ replicate fuel value.
Proof.
  induction fuel as [| fuel IH]; intros Dimension dims Hlen.
  - simpl. rewrite take_ge; [| lia]. by rewrite app_nil_r.
  - fill_loop_step IH.
Qed.

Lemma assign_loop_spec DimensionCount dims value :
  length dims = DimensionCount ->
  assign_loop 0 DimensionCount dims value = replicate DimensionCount value.
Proof.
  intros Hlen. unfold assign_loop.
  rewrite assign_loop_rec_spec; [| lia].
  by rewrite Nat.sub_0_r.
Qed.

Lemma copy_loop_rec_spec source fuel : forall Dimension target,
  length target = Dimension + fuel ->
  copy_loop_rec fuel Dimension source target
  = take Dimension target
    ++ map (fun d => nth d source 0%Z) (seq Dimension fuel).
Proof.
  induction fuel as [| fuel IH]; intros Dimension target Hlen.
  - simpl. rewrite take_ge; [| lia]. by rewrite app_nil_r.
  - fill_loop_step IH.
Qed.

Lemma map_nth_seq (l : list Z) :
  map (fun d => nth d l 0%Z) (seq 0 (length l)) = l.
Proof.
  apply list_eq. intros i.
  change (map ?f ?k) with (f <$> k). rewrite list_lookup_fmap.
  destruct (decide (i < length l)) as [Hi | Hi].
  - destruct (lookup_lt_is_Some_2 l i Hi) as [x Hx].
    rewrite (proj2 (lookup_seq 0 (length l) i i)); [| done].
    simpl. rewrite (nth_lookup_Some _ _ _ _ Hx). by rewrite Hx.
  - rewrite (lookup_ge_None_2 l i); [| lia].
    rewrite (lookup_ge_None_2 (seq 0 (length l)) i); [done |].
    rewrite length_seq. lia.
Qed.

Lemma copy_loop_spec DimensionCount source target :
  length source = DimensionCount -> length target = DimensionCount ->
  copy_loop 0 DimensionCount source target = source.
Proof.
  intros Hs Ht. unfold copy_loop.
  rewrite copy_loop_rec_spec; [| lia].
  rewrite Nat.sub_0_r. simpl. subst DimensionCount. apply map_nth_seq.
Qed.

Lemma compare_loop_rec_spec source target fuel : forall Dimension,
  compare_loop_rec fuel Dimension source target = true
  <-> (forall d, Dimension <= d < Dimension + fuel ->
         nth d target 0%Z = nth d source 0%Z).
Proof.
  induction fuel as [| fuel IH]; intros Dimension; simpl.
  - split; [intros _ d Hd; lia | done].
  - destruct (Z.eqb_spec (nth Dimension target 0%Z) (nth Dimension source 0%Z))
      as [Heq | Hne]; simpl.
    + rewrite IH. split.
      * intros H d Hd. destruct (decide (d = Dimension)) as [-> | ?]; [done |].
        apply H. lia.
      * intros H d Hd. apply H. lia.
    + split; [done |]. intros H. exfalso. apply Hne, H. lia.
Qed.

Lemma compare_loop_spec DimensionCount source target :
  length source = DimensionCount -> length target = DimensionCount ->
  compare_loop 0 DimensionCount source target = true <-> source = target.
Proof.
  intros Hs Ht. unfold compare_loop. rewrite compare_loop_rec_spec.
  rewrite Nat.sub_0_r. split.
  - intros H. rewrite <- (map_nth_seq source), <- (map_nth_seq target).
    rewrite Hs, Ht. apply map_ext_in. intros d Hd%in_seq.
    symmetry. apply H. lia.
  - by intros -> d _.
Qed.

Lemma check_duplicate_loop_rec_spec minus equals seg fuel : forall Dimension,
  check_duplicate_loop_rec minus equals seg fuel Dimension
  = forallb (fun d => equals (seg_diff minus seg d) 0%Z) (seq Dimension fuel).
Proof.
  induction fuel as [| fuel IH]; intros Dimension; [done |].
  cbn [check_duplicate_loop_rec seq forallb]. rewrite <- IH.
  unfold seg_diff. by destruct (equals _ _).
Qed.

Lemma check_duplicate_loop_spec minus equals point_dimension seg :
  check_duplicate_loop minus equals seg 0 point_dimension
  = is_duplicate minus equals point_dimension seg.
Proof.
  unfold check_duplicate_loop. rewrite check_duplicate_loop_rec_spec.
  by rewrite Nat.sub_0_r.
Qed.

Lemma length_direction_vector minus DimensionCount seg :
  length (direction_vector minus DimensionCount seg) = DimensionCount.
Proof. unfold direction_vector. by rewrite length_map, length_seq. Qed.

Lemma direction_vector_range minus DimensionCount seg x :
  x ∈ direction_vector minus DimensionCount seg ->
  x = (-1)%Z \/ x = 0%Z \/ x = 1%Z.
Proof.
  unfold direction_vector. intros Hx%list_elem_of_In%in_map_iff.
  destruct Hx as (d & <- & _). apply direction_sign_range.
Qed.

Lemma nth_direction_vector minus DimensionCount seg d :
  d < DimensionCount ->
  nth d (direction_vector minus DimensionCount seg) 0%Z = Z.sgn (seg_diff minus seg d).
Proof.
  intros Hd. unfold direction_vector.
  rewrite <- direction_sign_sgn.
  rewrite (nth_indep _ 0%Z (direction_sign (seg_diff minus seg 0)));
    [| rewrite length_map, length_seq; lia].
  rewrite (map_nth (fun d => direction_sign (seg_diff minus seg d))).
  by rewrite seq_nth.
Qed.

(** ** Segments of a range *)

Lemma lookup_point_at (view : list Point) (j : nat) :
  j < length view -> view !! j = Some (point_at view j).
Proof.
  intros Hj. unfold point_at.
  destruct (nth_lookup_or_length view j []) as [H | H]; [done | lia].
Qed.

Lemma take_drop_snoc (view : list Point) (b n : nat) :
  b + n < length view ->
  take (S n) (drop b view) = take n (drop b view) ++ [point_at view (b + n)].
Proof.
  intros H. apply take_S_r. rewrite lookup_drop. by apply lookup_point_at.
Qed.

(** ** The box grown by [combine] *)

Section BoxUnion.

Variable point_dimension : nat.

Lemma get_map_seq (f : nat -> Z) (d : nat) :
  d < point_dimension -> get d (map f (seq 0 point_dimension)) = f d.
Proof.
  intros Hd. unfold get.
  rewrite (nth_indep _ 0%Z (f 0)); [| rewrite length_map, length_seq; lia].
  rewrite (map_nth f). by rewrite seq_nth.
Qed.

Lemma within_box_spec (p : Point) (lo hi : Point) :
  within_box point_dimension p (corners_box lo hi) = true
  <-> forall d, d < point_dimension ->
        (get d lo <= get d p /\ get d p <= get d hi)%Z.
Proof.
  simpl. rewrite forallb_forall. split.
  - intros H d Hd. specialize (H d). rewrite in_seq in H.
    specialize (H ltac:(lia)). apply andb_prop in H as [H1 H2].
    apply Z.leb_le in H1, H2. done.
  - intros H d Hd%in_seq. destruct (H d ltac:(lia)) as [H1 H2].
    apply andb_true_intro. split; by apply Z.leb_le.
Qed.

Lemma within_combine_self (b : box_type) (p : Point) :
  within_box point_dimension p (combine point_dimension b p) = true.
Proof.
  destruct b as [| lo hi]; cbn [combine]; apply within_box_spec;
    intros d Hd; rewrite !get_map_seq by done; lia.
Qed.

Lemma within_combine_mono (b : box_type) (p q : Point) :
  within_box point_dimension q b = true ->
  within_box point_dimension q (combine point_dimension b p) = true.
Proof.
  destruct b as [| lo hi]; [done |]. cbn [combine].
  rewrite !within_box_spec. intros H d Hd.
  rewrite !get_map_seq by done. specialize (H d Hd). lia.
Qed.

Lemma within_foldl_mono (l : list Point) : forall (b : box_type) (q : Point),
  within_box point_dimension q b = true ->
  within_box point_dimension q (foldl (combine point_dimension) b l) = true.
Proof.
  induction l as [| p l IH]; intros b q H; [done |].
  simpl. apply IH. by apply within_combine_mono.
Qed.

Lemma within_foldl_elem (l : list Point) : forall (b : box_type) (q : Point),
  q ∈ l ->
  within_box point_dimension q (foldl (combine point_dimension) b l) = true.
Proof.
  induction l as [| p l IH]; intros b q Hq; [by apply elem_of_nil in Hq |].
  apply elem_of_cons in Hq as [-> | Hq]; simpl.
  - apply within_foldl_mono, within_combine_self.
  - by apply IH.
Qed.

End BoxUnion.

(** ** The section builder *)

Section Builder.

Variable minus : coordinate_type -> coordinate_type -> coordinate_type.
Variable equals : coordinate_type -> coordinate_type -> bool.
Variable point_dimension : nat.
Variable DimensionCount : nat.
Variable MaxCount : nat.

Abbreviation classes := (segment_classes minus equals point_dimension DimensionCount).
Abbreviation sentinel := (replicate DimensionCount (-99)%Z).

Lemma segment_classes_spec (seg : segment_type) :
  classes seg
  = if (nth 0 (direction_vector minus DimensionCount seg) 0 =? 0)%Z
       && is_duplicate minus equals point_dimension seg
    then (true, sentinel)
    else (false, direction_vector minus DimensionCount seg).
Proof.
  unfold segment_classes.
  rewrite get_direction_loop_spec by apply length_replicate.
  rewrite check_duplicate_loop_spec.
  rewrite assign_loop_spec by apply length_direction_vector.
  destruct (_ =? _)%Z; [| done]. by destruct (is_duplicate _ _ _ _).
Qed.

Lemma segment_classes_length (seg : segment_type) :
  length (snd (classes seg)) = DimensionCount.
Proof.
  rewrite segment_classes_spec. destruct (_ && _); simpl.
  - apply length_replicate.
  - apply length_direction_vector.
Qed.

Lemma segment_classes_duplicate (seg : segment_type) :
  fst (classes seg) = true -> snd (classes seg) = sentinel.
Proof. rewrite segment_classes_spec. by destruct (_ && _). Qed.

Lemma segment_classes_regular (seg : segment_type) :
  fst (classes seg) = false ->
  snd (classes seg) = direction_vector minus DimensionCount seg.
Proof. rewrite segment_classes_spec. by destruct (_ && _). Qed.

(** With at least one tracked dimension the overwritten classes tell a
    duplicate from any other segment. *)
Lemma sentinel_not_direction_vector (seg : segment_type) :
  0 < DimensionCount -> direction_vector minus DimensionCount seg <> sentinel.
Proof.
  intros HD Heq.
  assert (H : (-99)%Z ∈ direction_vector minus DimensionCount seg).
  { rewrite Heq. destruct DimensionCount; [lia |]. simpl. apply elem_of_cons. auto. }
  apply direction_vector_range in H. lia.
Qed.

Lemma segment_classes_sentinel (seg : segment_type) :
  0 < DimensionCount ->
  snd (classes seg) = sentinel -> fst (classes seg) = true.
Proof.
  intros HD. rewrite segment_classes_spec. destruct (_ && _); simpl; [done |].
  intros H. by apply sentinel_not_direction_vector in H.
Qed.

Lemma flush_condition_spec (sec : section) (cls : list Z) :
  length cls = DimensionCount -> length (directions sec) = DimensionCount ->
  flush_condition DimensionCount MaxCount sec cls = true
  <-> 0 < count sec /\ (cls <> directions sec \/ MaxCount < count sec).
Proof.
  intros Hc Hd. unfold flush_condition.
  rewrite andb_true_iff, orb_true_iff, negb_true_iff.
  rewrite !Nat.ltb_lt.
  rewrite <- not_true_iff_false, (compare_loop_spec DimensionCount) by done.
  done.
Qed.

Section Range.

Variable view : list Point.
Variables ring_index' multi_index' : Z.

Abbreviation non_duplicates :=
  (non_duplicates minus equals point_dimension DimensionCount view).
Abbreviation covers :=
  (covers minus equals point_dimension DimensionCount MaxCount view
     ring_index' multi_index').
Abbreviation split_reason :=
  (split_reason minus equals point_dimension DimensionCount MaxCount view).
Abbreviation pushed :=
  (pushed minus equals point_dimension DimensionCount MaxCount view
     ring_index' multi_index').
Abbreviation tiles :=
  (tiles minus equals point_dimension DimensionCount MaxCount view
     ring_index' multi_index').
Abbreviation part_inv :=
  (part_inv minus equals point_dimension DimensionCount MaxCount view
     ring_index' multi_index').

Lemma non_duplicates_S (k : nat) :
  non_duplicates (S k)
  = non_duplicates k + (if fst (classes (segment_at view k)) then 0 else 1).
Proof.
  unfold non_duplicates. rewrite seq_S, filter_app, length_app. simpl.
  rewrite filter_cons, filter_nil.
  destruct (fst (classes (segment_at view k))); by case_decide.
Qed.

Lemma pushed_snoc (ss : list section) : forall a b e s,
  pushed a ss b -> covers s b e -> split_reason s e ->
  pushed a (ss ++ [s]) e.
Proof.
  induction ss as [| t ss IH]; intros a b e s Hp Hc Hr; simpl in *.
  - subst b. by exists e.
  - destruct Hp as (m & Hc' & Hr' & Hp). exists m. eauto.
Qed.

Lemma pushed_tiles_app (ss : list section) : forall a b e rest,
  pushed a ss b -> tiles b rest e -> tiles a (ss ++ rest) e.
Proof.
  induction ss as [| t ss IH]; intros a b e rest Hp Ht; simpl in *.
  - by subst b.
  - destruct Hp as (m & Hc & Hr & Hp). exists m. eauto.
Qed.

Lemma covers_directions_length s b e :
  covers s b e -> length (directions s) = DimensionCount.
Proof.
  intros Hc. rewrite <- (segment_classes_length (segment_at view b)).
  by rewrite (cov_first Hc).
Qed.

(** *** The loop invariant *)

(** A section begun at segment [k] and holding that segment only. *)
Lemma begin_section_covers (k : nat) (dup : bool) (cls : list Z) :
  S k < length view ->
  classes (segment_at view k) = (dup, cls) ->
  covers
    (add_segment point_dimension (Z.of_nat k) (point_at view (S k))
       (begin_section point_dimension DimensionCount (length view)
          ring_index' multi_index' (Z.of_nat k) (Z.of_nat (non_duplicates k))
          dup cls (point_at view k) (section_type DimensionCount)))
    k (S k).
Proof.
  intros Hk Hcls.
  assert (Hlen : length cls = DimensionCount).
  { rewrite <- (segment_classes_length (segment_at view k)). by rewrite Hcls. }
  assert (Hcopy : copy_loop 0 DimensionCount cls (replicate DimensionCount 0%Z) = cls).
  { apply copy_loop_spec; [done | apply length_replicate]. }
  split; simpl; try done; try lia.
  - by rewrite Hcopy.
  - intros j Hj. assert (j = k) as -> by lia. by rewrite Hcls, Hcopy.
  - replace (S k - k) with 1 by lia.
    rewrite (take_drop_snoc view k 1) by lia.
    rewrite (take_drop_snoc view k 0) by lia.
    rewrite take_0, Nat.add_0_r, Nat.add_1_r. done.
Qed.

(** The section in progress, extended by segment [k]. *)
Lemma add_segment_covers (sec : section) (b k : nat) :
  S k < length view ->
  covers sec b k ->
  count sec <= MaxCount ->
  snd (classes (segment_at view k)) = directions sec ->
  covers (add_segment point_dimension (Z.of_nat k) (point_at view (S k)) sec)
    b (S k).
Proof.
  intros Hk Hc Hmax Hcls. destruct Hc. split; simpl; try done; try lia.
  - intros j Hj. destruct (decide (j = k)) as [-> | ?]; [done |].
    apply cov_classes0. lia.
  - replace (S k - b) with (S (k - b)) by lia.
    rewrite (take_drop_snoc view b (S (k - b))) by lia.
    rewrite foldl_app. simpl. rewrite <- cov_box0.
    by replace (b + S (k - b)) with (S k) by lia.
Qed.

Lemma part_step_inv (k : nat) (st : part_state) :
  S k < length view ->
  part_inv k st ->
  part_inv (S k)
    (part_step minus equals point_dimension DimensionCount MaxCount (length view)
       ring_index' multi_index' (point_at view k) (point_at view (S k)) st).
Proof.
  intros Hk [Hidx Hndi (b & Hp & Hcur)].
  unfold part_step.
  change (Segment (point_at view k) (point_at view (S k)))
    with (segment_at view k).
  pose proof (non_duplicates_S k) as HndS.
  pose proof (segment_classes_length (segment_at view k)) as Hlen.
  destruct (classes (segment_at view k)) as [dup cls] eqn:Hcls.
  simpl in Hlen, HndS. rewrite Hidx, Hndi.
  assert (Hndi' : (if dup then Z.of_nat (non_duplicates k)
                   else (Z.of_nat (non_duplicates k) + 1)%Z)
                  = Z.of_nat (non_duplicates (S k))).
  { rewrite HndS. destruct dup; lia. }
  destruct Hcur as [[Hfresh ->] | Hcov].
  - (* nothing in progress yet *)
    rewrite Hfresh. unfold flush_condition. cbn [count section_type].
    rewrite Nat.ltb_irrefl. cbn [andb Nat.eqb count section_type].
    split; cbn [st_index st_ndi st_sections st_section]; [lia | done |].
    exists k. split; [done |]. right. by apply begin_section_covers.
  - pose proof (covers_directions_length _ _ _ Hcov) as Hdl.
    destruct (flush_condition DimensionCount MaxCount (st_section st) cls)
      eqn:Hflush.
    + (* the section in progress is pushed, a new one begins *)
      apply flush_condition_spec in Hflush as [_ Hwhy]; [| done | done].
      cbn [count section_type Nat.eqb].
      split; cbn [st_index st_ndi st_sections st_section]; [lia | done |].
      exists k. split.
      * eapply pushed_snoc; [done | done |].
        unfold split_reason. rewrite Hcls. done.
      * right. by apply begin_section_covers.
    + (* the segment joins the section in progress *)
      apply not_true_iff_false in Hflush.
      rewrite flush_condition_spec in Hflush by done.
      pose proof (cov_nonempty Hcov) as Hne.
      pose proof (cov_count Hcov) as Hcnt.
      assert (Hsame : cls = directions (st_section st)).
      { destruct (decide (cls = directions (st_section st))); [done |].
        exfalso. apply Hflush. split; [lia | by left]. }
      assert (Hmax : count (st_section st) <= MaxCount).
      { destruct (decide (count (st_section st) <= MaxCount)); [done |].
        exfalso. apply Hflush. split; [lia | right; lia]. }
      destruct (count (st_section st) =? 0) eqn:Hz;
        [apply Nat.eqb_eq in Hz; lia |].
      split; cbn [st_index st_ndi st_sections st_section]; [lia | done |].
      exists b. split; [done |]. right.
      apply add_segment_covers; [done | done | done |]. by rewrite Hcls.
Qed.

(** *** What a tiling says about its sections *)

Lemma tiles_le (ss : list section) : forall a e, tiles a ss e -> a <= e.
Proof.
  induction ss as [| t ss IH]; intros a e Ht; simpl in Ht; [lia |].
  destruct Ht as (m & Hc & _ & Ht). apply IH in Ht.
  pose proof (cov_nonempty Hc). lia.
Qed.

Lemma tiles_lookup (ss : list section) : forall i a e s,
  tiles a ss e -> ss !! i = Some s ->
  exists b' e', covers s b' e' /\ a <= b' /\ e' <= e
                /\ (e' < e -> split_reason s e')
                /\ tiles e' (drop (S i) ss) e.
Proof.
  induction ss as [| t ss IH]; intros i a e s Ht Hi; [done |].
  simpl in Ht. destruct Ht as (m & Hc & Hr & Ht).
  pose proof (tiles_le _ _ _ Ht) as Hle.
  pose proof (cov_nonempty Hc) as Hne.
  destruct i as [| i]; simpl in Hi.
  - injection Hi as <-. exists a, m. simpl.
    split; [exact Hc |]. split; [lia |]. split; [lia |]. split; [exact Hr | exact Ht].
  - destruct (IH i m e s Ht Hi) as (b' & e' & Hc' & Hb' & He' & Hr' & Ht').
    exists b', e'. simpl.
    split; [exact Hc' |]. split; [lia |]. split; [lia |]. split; [exact Hr' | exact Ht'].
Qed.

Lemma tiles_elem (ss : list section) a e s :
  tiles a ss e -> s ∈ ss ->
  exists b' e', covers s b' e' /\ a <= b' /\ e' <= e.
Proof.
  intros Ht [i Hi]%list_elem_of_lookup.
  destruct (tiles_lookup ss i a e s Ht Hi) as (b' & e' & Hc & Hb & He & _).
  eauto.
Qed.

Lemma tiles_cover (ss : list section) : forall a e j,
  tiles a ss e -> a <= j < e ->
  exists i s b' e', ss !! i = Some s /\ covers s b' e' /\ b' <= j < e'.
Proof.
  induction ss as [| t ss IH]; intros a e j Ht Hj; simpl in Ht; [lia |].
  destruct Ht as (m & Hc & _ & Ht).
  destruct (decide (j < m)) as [Hlt | Hge].
  - exists 0, t, a, m. split; [done |]. split; [exact Hc | lia].
  - destruct (IH m e j Ht ltac:(lia)) as (i & s & b' & e' & Hi & Hc' & Hj').
    exists (S i), s, b', e'. done.
Qed.

(** When no two consecutive segments have the same classes, every
    section holds a single segment. *)
Lemma tiles_singletons (ss : list section) : forall a e,
  (forall j, a <= j -> S j < e ->
     snd (classes (segment_at view j)) <> snd (classes (segment_at view (S j)))) ->
  tiles a ss e ->
  length ss = e - a
  /\ forall i s, ss !! i = Some s -> covers s (a + i) (S (a + i)).
Proof.
  induction ss as [| t ss IH]; intros a e Hdiff Ht; simpl in Ht.
  - subst e. split; [simpl; lia | done].
  - destruct Ht as (m & Hc & _ & Ht).
    pose proof (tiles_le _ _ _ Ht) as Hle.
    pose proof (cov_nonempty Hc) as Hne.
    assert (m = S a) as ->.
    { destruct (decide (m = S a)) as [| Hm]; [done |]. exfalso.
      apply (Hdiff a); [lia | lia |].
      rewrite (cov_classes Hc a) by lia.
      by rewrite (cov_classes Hc (S a)) by lia. }
    destruct (IH (S a) e) as [Hlen Hall]; [| done |].
    { intros j Hj. apply Hdiff. lia. }
    split; [simpl; lia |].
    intros [| i] s Hi; simpl in Hi.
    + injection Hi as <-. by rewrite Nat.add_0_r.
    + replace (a + S i) with (S a + i) by lia. by apply Hall.
Qed.

End Range.

End Builder.

(** ** The range sectionizer *)

Section RangeSectionizer.

Variable minus : coordinate_type -> coordinate_type -> coordinate_type.
Variable equals : coordinate_type -> coordinate_type -> bool.
Variable point_dimension : nat.
Variable DimensionCount : nat.
Variable MaxCount : nat.

Abbreviation step :=
  (part_step minus equals point_dimension DimensionCount MaxCount).
Abbreviation loop :=
  (part_loop minus equals point_dimension DimensionCount MaxCount).
Abbreviation range_sections :=
  (sectionalize_range minus equals point_dimension DimensionCount MaxCount).
Abbreviation Tiles := (tiles minus equals point_dimension DimensionCount MaxCount).
Abbreviation Covers := (covers minus equals point_dimension DimensionCount MaxCount).

(** *** Sections already in the collection are left alone *)

Lemma part_step_prepend ss0 n ri mi previous it st :
  step n ri mi previous it (prepend ss0 st)
  = prepend ss0 (step n ri mi previous it st).
Proof.
  unfold part_step, prepend. cbn [st_sections st_section st_index st_ndi].
  destruct (segment_classes _ _ _ _ _) as [dup cls].
  destruct (flush_condition _ _ _ _); cbn [st_sections st_section st_index st_ndi];
    by rewrite ?app_assoc.
Qed.

Lemma part_loop_prepend ss0 n ri mi rest : forall previous st,
  loop n ri mi previous rest (prepend ss0 st)
  = prepend ss0 (loop n ri mi previous rest st).
Proof.
  induction rest as [| it rest IH]; intros previous st; [done |].
  simpl. by rewrite part_step_prepend, IH.
Qed.

Lemma sectionalize_part_prepend ss0 st range ri mi :
  sectionalize_part minus equals point_dimension DimensionCount MaxCount
    (prepend ss0 st) range ri mi
  = prepend ss0
      (sectionalize_part minus equals point_dimension DimensionCount MaxCount
         st range ri mi).
Proof.
  unfold sectionalize_part. cbn [prepend st_index st_ndi st_sections st_section].
  destruct (_ <=? _)%Z; [done |].
  destruct (drop _ _) as [| previous rest]; [done |].
  by rewrite <- part_loop_prepend.
Qed.

Lemma sectionalize_range_app Closure range ss0 ri mi :
  range_sections Closure range ss0 ri mi
  = ss0 ++ range_sections Closure range [] ri mi.
Proof.
  unfold sectionalize_range.
  destruct (length _ =? 0); [by rewrite app_nil_r |].
  destruct (length _ =? 1); [by rewrite app_nil_r |].
  replace {| st_sections := ss0; st_section := section_type DimensionCount;
             st_index := 0; st_ndi := 0 |}
    with (prepend ss0 {| st_sections := []; st_section := section_type DimensionCount;
                         st_index := 0; st_ndi := 0 |})
    by (unfold prepend; simpl; by rewrite app_nil_r).
  rewrite sectionalize_part_prepend. cbn [prepend st_sections st_section].
  destruct (0 <? _); [by rewrite app_assoc | done].
Qed.

(** *** The sections of a range tile its segments *)

Lemma part_loop_inv view ri mi rest : forall k st,
  drop (S k) view = rest -> k < length view ->
  part_inv minus equals point_dimension DimensionCount MaxCount view ri mi k st ->
  part_inv minus equals point_dimension DimensionCount MaxCount view ri mi
    (k + length rest) (loop (length view) ri mi (point_at view k) rest st).
Proof.
  induction rest as [| it rest IH]; intros k st Hdrop Hk Hinv.
  - simpl. by rewrite Nat.add_0_r.
  - assert (Hit : view !! S k = Some it).
    { rewrite <- (Nat.add_0_r (S k)), <- lookup_drop. by rewrite Hdrop. }
    pose proof (lookup_lt_Some _ _ _ Hit) as HSk.
    assert (it = point_at view (S k)) as ->.
    { symmetry. by apply nth_lookup_Some. }
    rewrite (drop_S _ _ _ Hit) in Hdrop. injection Hdrop as Hdrop.
    simpl. replace (k + S (length rest)) with (S k + length rest) by lia.
    apply IH; [done | done |]. by apply part_step_inv.
Qed.

Theorem sectionalize_range_tiles Closure range ri mi :
  Tiles (closeable_view Closure range) ri mi 0
    (range_sections Closure range [] ri mi)
    (length (closeable_view Closure range) - 1).
Proof.
  unfold sectionalize_range.
  set (view := closeable_view Closure range).
  destruct (length view =? 0) eqn:H0; [apply Nat.eqb_eq in H0; simpl; lia |].
  destruct (length view =? 1) eqn:H1; [apply Nat.eqb_eq in H1; simpl; lia |].
  apply Nat.eqb_neq in H0, H1.
  unfold sectionalize_part. cbn [st_index st_ndi st_sections st_section].
  destruct (Z.leb_spec (Z.of_nat (length view)) 0) as [Hle | _]; [lia |].
  simpl (Z.to_nat 0). rewrite drop_0. simpl (0 =? 0)%Z. cbn iota.
  destruct view as [| previous rest] eqn:Hview; [done |].
  rewrite <- Hview.
  change previous with (point_at (previous :: rest) 0). rewrite <- Hview.
  assert (Hdrop : drop 1 view = rest) by by rewrite Hview.
  assert (Hlen : length view - 1 = 0 + length rest)
    by (rewrite Hview; simpl; apply Nat.sub_0_r).
  rewrite Hlen.
  assert (Hpos : 0 < length view) by (rewrite Hview; simpl; lia).
  assert (Hinit : part_inv minus equals point_dimension DimensionCount MaxCount
                    view ri mi 0
                    {| st_sections := []; st_section := section_type DimensionCount;
                       st_index := 0; st_ndi := 0 |}).
  { split; cbn [st_index st_ndi st_sections st_section]; [done | done |].
    exists 0. split; [reflexivity | left; split; reflexivity]. }
  destruct (part_loop_inv view ri mi rest 0 _ Hdrop Hpos Hinit)
    as [_ _ (b & Hp & Hcur)].
  destruct Hcur as [[Hfresh ->] | Hcov].
  - rewrite Hfresh. cbn [count section_type]. rewrite Nat.ltb_irrefl.
    eapply pushed_tiles_app with (rest := []) in Hp; [| reflexivity].
    by rewrite app_nil_r in Hp.
  - pose proof (cov_nonempty Hcov) as Hne.
    pose proof (cov_count Hcov) as Hcnt.
    destruct (Nat.ltb_spec 0 (count (st_section
      (loop (length view) ri mi (point_at view 0) rest
         {| st_sections := []; st_section := section_type DimensionCount;
            st_index := 0; st_ndi := 0 |})))) as [_ | Hbad]; [| lia].
    eapply pushed_tiles_app; [exact Hp |].
    simpl. eexists. split; [exact Hcov |]. split; [lia | done].
Qed.

End RangeSectionizer.

(** ** Sections produced for one range *)

Lemma segment_total_view Closure range :
  0 < length (closeable_view Closure range) ->
  segment_total Closure range
  = (Z.of_nat (length (closeable_view Closure range)) - 1)%Z.
Proof.
  destruct Closure; simpl; [| done].
  destruct range as [| p range]; simpl; [lia |].
  rewrite length_app. simpl. lia.
Qed.

Lemma segment_total_empty_view Closure range :
  length (closeable_view Closure range) = 0 -> (segment_total Closure range <= 0)%Z.
Proof.
  destruct Closure; simpl.
  - destruct range; simpl; [lia |]. rewrite length_app. simpl. lia.
  - lia.
Qed.

Section ProducedSections.

Variable minus : coordinate_type -> coordinate_type -> coordinate_type.
Variable equals : coordinate_type -> coordinate_type -> bool.
Variable point_dimension : nat.
Variable DimensionCount : nat.
Variable MaxCount : nat.
Variable Closure : closure_selector.
Variable range : list Point.
Variable sections : Sections.
Variables ring_index' multi_index' : Z.

Abbreviation view := (closeable_view Closure range).
Abbreviation out :=
  (produced_sections minus equals point_dimension DimensionCount MaxCount
     Closure range sections ring_index' multi_index').
Abbreviation Cov :=
  (covers minus equals point_dimension DimensionCount MaxCount view
     ring_index' multi_index').

Lemma produced_sections_fresh :
  out = sectionalize_range minus equals point_dimension DimensionCount MaxCount
          Closure range [] ring_index' multi_index'.
Proof.
  unfold produced_sections. rewrite sectionalize_range_app.
  by rewrite drop_app_length.
Qed.

Lemma sectionalize_range_produced :
  sectionalize_range minus equals point_dimension DimensionCount MaxCount
    Closure range sections ring_index' multi_index'
  = sections ++ out.
Proof. rewrite produced_sections_fresh. apply sectionalize_range_app. Qed.

Lemma produced_tiles :
  tiles minus equals point_dimension DimensionCount MaxCount view
    ring_index' multi_index' 0 out (length view - 1).
Proof. rewrite produced_sections_fresh. apply sectionalize_range_tiles. Qed.

Lemma produced_covers (s : section) :
  s ∈ out -> exists b e, Cov s b e.
Proof.
  intros Hs. destruct (tiles_elem _ _ _ _ _ _ _ _ _ _ _ _ produced_tiles Hs)
    as (b & e & Hc & _). eauto.
Qed.

Lemma produced_lookup (i : nat) (s : section) :
  out !! i = Some s ->
  exists b e, Cov s b e
    /\ (e < length view - 1 ->
        split_reason minus equals point_dimension DimensionCount MaxCount view s e)
    /\ tiles minus equals point_dimension DimensionCount MaxCount view
         ring_index' multi_index' e (drop (S i) out) (length view - 1).
Proof.
  intros Hi.
  destruct (tiles_lookup _ _ _ _ _ _ _ _ _ _ _ _ _ produced_tiles Hi)
    as (b & e & Hc & _ & _ & Hr & Ht). eauto.
Qed.

Lemma produced_next (i : nat) (s t : section) :
  out !! i = Some s -> out !! S i = Some t ->
  exists b m e, Cov s b m /\ Cov t m e
    /\ split_reason minus equals point_dimension DimensionCount MaxCount view s m.
Proof.
  intros Hi Hj.
  destruct (produced_lookup i s Hi) as (b & m & Hc & Hr & Ht).
  rewrite (drop_S _ _ _ Hj) in Ht. simpl in Ht.
  destruct Ht as (e & Hc' & _ & Ht).
  exists b, m, e. split; [done |]. split; [done |].
  apply Hr. pose proof (cov_inside Hc').
  pose proof (cov_nonempty Hc'). lia.
Qed.

Lemma produced_ordered (i j : nat) (s t : section) :
  i < j -> out !! i = Some s -> out !! j = Some t ->
  (end_index s <= begin_index t)%Z.
Proof.
  intros Hij Hi Hj.
  destruct (produced_lookup i s Hi) as (b & m & Hc & _ & Ht).
  assert (Ht' : t ∈ drop (S i) out).
  { apply list_elem_of_lookup. exists (j - S i). rewrite lookup_drop.
    by replace (S i + (j - S i)) with j by lia. }
  destruct (tiles_elem _ _ _ _ _ _ _ _ _ _ _ _ Ht Ht') as (b' & e' & Hc' & Hb' & _).
  rewrite (cov_end Hc), (cov_begin Hc').
  lia.
Qed.

End ProducedSections.

(** ** Every geometry kind *)

Section Dispatch.

Variable minus : coordinate_type -> coordinate_type -> coordinate_type.
Variable equals : coordinate_type -> coordinate_type -> bool.
Variable point_dimension : nat.
Variable DimensionCount : nat.
Variable MaxCount : nat.

Abbreviation range_sections :=
  (sectionalize_range minus equals point_dimension DimensionCount MaxCount).

Lemma covers_well_formed view ri mi s b e :
  covers minus equals point_dimension DimensionCount MaxCount view ri mi s b e ->
  well_formed DimensionCount MaxCount s.
Proof.
  intros Hc.
  pose proof (cov_first Hc) as Hfirst.
  pose proof (cov_nonempty Hc). pose proof (cov_count Hc).
  pose proof (cov_max Hc). pose proof (cov_begin Hc). pose proof (cov_end Hc).
  split; try lia.
  - rewrite <- (segment_classes_length minus equals point_dimension DimensionCount
                  (segment_at view b)). by rewrite Hfirst.
  - intros Hdup x Hx.
    pose proof (segment_classes_regular minus equals point_dimension DimensionCount
                  (segment_at view b)) as Hreg.
    rewrite Hfirst in Hreg. simpl in Hreg. rewrite (Hreg Hdup) in Hx.
    by apply direction_vector_range in Hx.
  - intros Hdup.
    pose proof (segment_classes_duplicate minus equals point_dimension DimensionCount
                  (segment_at view b)) as Hd.
    rewrite Hfirst in Hd. simpl in Hd. by apply Hd.
Qed.

Lemma range_sections_well_formed Closure range ri mi :
  Forall (well_formed DimensionCount MaxCount)
    (range_sections Closure range [] ri mi).
Proof.
  apply Forall_forall. intros s Hs.
  destruct (tiles_elem _ _ _ _ _ _ _ _ _ _ _ _
              (sectionalize_range_tiles minus equals point_dimension DimensionCount
                 MaxCount Closure range ri mi) Hs) as (b & e & Hc & _).
  by eapply covers_well_formed.
Qed.

Section Lifting.

(** A property of the sections of every single range holds of the
    sections of every geometry. *)
Variable P : section -> Prop.
Hypothesis range_ok : forall Closure range ri mi,
  Forall P (range_sections Closure range [] ri mi).

Lemma sectionalize_range_Forall Closure range sections ri mi :
  Forall P sections -> Forall P (range_sections Closure range sections ri mi).
Proof using range_ok.
  intros H. rewrite sectionalize_range_app. apply Forall_app. split; [done |].
  apply range_ok.
Qed.

Lemma interior_loop_Forall Closure mi rings : forall i sections,
  Forall P sections ->
  Forall P
    (interior_loop minus equals point_dimension DimensionCount MaxCount
       Closure i rings sections mi).
Proof using range_ok.
  induction rings as [| r rings IH]; intros i sections H; [done |].
  simpl. apply IH. by apply sectionalize_range_Forall.
Qed.

Lemma dispatch_sectionalize_Forall geometry sections :
  Forall P sections ->
  Forall P
    (dispatch_sectionalize minus equals point_dimension DimensionCount MaxCount
       geometry sections).
Proof using range_ok.
  intros H. destruct geometry as [b | ls | r | p]; simpl.
  - by apply sectionalize_range_Forall.
  - by apply sectionalize_range_Forall.
  - by apply sectionalize_range_Forall.
  - unfold sectionalize_polygon. apply interior_loop_Forall.
    by apply sectionalize_range_Forall.
Qed.

End Lifting.

(** The sections of a geometry are those of its ranges, one range after
    the other. *)
Lemma interior_loop_rings Closure mi rings : forall i sections,
  interior_loop minus equals point_dimension DimensionCount MaxCount
    Closure i rings sections mi
  = sections
    ++ concat (map (fun r => range_sections r.1.1 r.1.2 [] r.2 mi)
                 (numbered_rings Closure i rings)).
Proof.
  induction rings as [| r rings IH]; intros i sections; simpl.
  - by rewrite app_nil_r.
  - rewrite IH, sectionalize_range_app. by rewrite <- app_assoc.
Qed.

Lemma dispatch_sectionalize_rings geometry sections :
  dispatch_sectionalize minus equals point_dimension DimensionCount MaxCount
    geometry sections
  = sections
    ++ concat (map (fun r => range_sections r.1.1 r.1.2 [] r.2 (-1))
                 (rings_of geometry)).
Proof.
  destruct geometry as [b | ls | r | p]; simpl;
    rewrite ?app_nil_r; try apply sectionalize_range_app.
  unfold sectionalize_polygon.
  rewrite interior_loop_rings, sectionalize_range_app. by rewrite <- app_assoc.
Qed.

Lemma set_ids_loop_elem sections : forall index s,
  s ∈ set_ids_loop index sections ->
  exists j s0, s0 ∈ sections /\ s = set_id j s0.
Proof.
  induction sections as [| t sections IH]; intros index s Hs; simpl in Hs.
  - by apply elem_of_nil in Hs.
  - apply elem_of_cons in Hs as [-> | Hs].
    + exists index, t. split; [apply elem_of_cons; by left | done].
    + destruct (IH _ _ Hs) as (j & s0 & Hs0 & ->).
      exists j, s0. split; [apply elem_of_cons; by right | done].
Qed.

Lemma set_ids_loop_ids sections : forall index,
  map id (set_ids_loop index sections)
  = map (fun n => (index + Z.of_nat n)%Z) (seq 0 (length sections)).
Proof.
  induction sections as [| t sections IH]; intros index; [done |].
  simpl. f_equal; [lia |].
  rewrite IH, <- seq_shift, map_map. apply map_ext. intros n. lia.
Qed.

Lemma set_ids_loop_lookup sections : forall index i s,
  set_ids_loop index sections !! i = Some s -> id s = (index + Z.of_nat i)%Z.
Proof.
  induction sections as [| t sections IH]; intros index i s Hi; [done |].
  destruct i as [| i]; simpl in Hi.
  - injection Hi as <-. simpl. lia.
  - apply IH in Hi. lia.
Qed.

Lemma length_set_ids_loop sections : forall index,
  length (set_ids_loop index sections) = length sections.
Proof.
  induction sections as [| t sections IH]; intros index; [done |].
  simpl. by rewrite IH.
Qed.

Lemma well_formed_set_id j s :
  well_formed DimensionCount MaxCount s ->
  well_formed DimensionCount MaxCount (set_id j s).
Proof. intros []. by split. Qed.

End Dispatch.

Lemma sectionalize_well_formed minus equals point_dimension DimensionCount
    geometry sections s :
  s ∈ sectionalize minus equals point_dimension DimensionCount geometry sections ->
  well_formed DimensionCount max_segments_per_section s.
Proof.
  unfold sectionalize, set_section_unique_ids. intros Hs.
  apply set_ids_loop_elem in Hs as (j & s0 & Hs0 & ->).
  apply well_formed_set_id.
  revert s0 Hs0. apply Forall_forall.
  apply dispatch_sectionalize_Forall; [| done].
  apply range_sections_well_formed.
Qed.

(** * The properties of the specification *)

(** C1 (partition property).  For a range of [N] points seen through its
    closing view, with [M] segments ([N - 1], or [N] when the closing point
    is appended), the sections appended by [sectionalize_range] have
    non-empty index ranges inside [[0, M)]; consecutive sections are
    contiguous, sections appear in increasing index order, two different
    sections share no segment index, and every index of [[0, M)] lies in
    some section. *)
Theorem sections_partition_segments
    (minus : coordinate_type -> coordinate_type -> coordinate_type)
    (equals : coordinate_type -> coordinate_type -> bool)
    (point_dimension DimensionCount MaxCount : nat)
    (Closure : closure_selector) (range : list Point) (sections : Sections)
    (ring_index' multi_index' : Z) :
  let out := produced_sections minus equals point_dimension DimensionCount MaxCount
               Closure range sections ring_index' multi_index' in
  let M := segment_total Closure range in
  sectionalize_range minus equals point_dimension DimensionCount MaxCount
    Closure range sections ring_index' multi_index' = sections ++ out
  /\ (forall s, s ∈ out ->
        (0 <= begin_index s /\ begin_index s < end_index s /\ end_index s <= M)%Z)
  /\ (forall i s t, out !! i = Some s -> out !! S i = Some t ->
        end_index s = begin_index t)
  /\ (forall i j s t, i < j -> out !! i = Some s -> out !! j = Some t ->
        (end_index s <= begin_index t)%Z)
  /\ (forall i j s t k, i <> j -> out !! i = Some s -> out !! j = Some t ->
        ~ ((begin_index s <= k < end_index s)%Z
           /\ (begin_index t <= k < end_index t)%Z))
  /\ (forall k, (0 <= k < M)%Z ->
        exists s, s ∈ out /\ (begin_index s <= k < end_index s)%Z).
Proof.
  intros out M.
  assert (Hrange : forall s, s ∈ out ->
            (0 <= begin_index s /\ begin_index s < end_index s /\ end_index s <= M)%Z).
  { intros s Hs.
    destruct (produced_covers _ _ _ _ _ _ _ _ _ _ s Hs) as (b & e & Hc).
    pose proof (cov_nonempty Hc). pose proof (cov_inside Hc).
    rewrite (cov_begin Hc), (cov_end Hc). unfold M.
    rewrite segment_total_view by lia. lia. }
  split; [apply sectionalize_range_produced |].
  split; [exact Hrange |].
  split.
  { intros i s t Hi Hj.
    destruct (produced_next _ _ _ _ _ _ _ _ _ _ i s t Hi Hj)
      as (b & m & e & Hc & Hc' & _).
    by rewrite (cov_end Hc), (cov_begin Hc'). }
  split; [intros i j s t; apply produced_ordered |].
  split.
  { intros i j s t k Hij Hi Hj [Hs Ht].
    assert (Hs' : s ∈ out) by (apply list_elem_of_lookup; eauto).
    assert (Ht' : t ∈ out) by (apply list_elem_of_lookup; eauto).
    destruct (decide (i < j)) as [Hlt | Hge].
    - pose proof (produced_ordered _ _ _ _ _ _ _ _ _ _ i j s t Hlt Hi Hj). lia.
    - assert (Hlt : j < i) by lia.
      pose proof (produced_ordered _ _ _ _ _ _ _ _ _ _ j i t s Hlt Hj Hi). lia. }
  intros k Hk.
  destruct (decide (length (closeable_view Closure range) = 0)) as [Hz | Hnz].
  { pose proof (segment_total_empty_view Closure range Hz). unfold M in Hk. lia. }
  unfold M in Hk. rewrite segment_total_view in Hk by lia.
  destruct (tiles_cover _ _ _ _ _ _ _ _ _ _ _ (Z.to_nat k)
              (produced_tiles minus equals point_dimension DimensionCount MaxCount
                 Closure range sections ring_index' multi_index')
              ltac:(lia))
    as (i & s & b & e & Hi & Hc & Hj).
  exists s. split; [apply list_elem_of_lookup; eauto |].
  rewrite (cov_begin Hc), (cov_end Hc). lia.
Qed.

(** C2 (direction consistency).  Every segment of a produced section with
    [duplicate = false] has the direction classifier's output equal to the
    section's [directions]: entry [d] is the sign, +1, -1 or 0, of the
    difference of the end and start coordinates along dimension [d] as
    the coordinate type computes it, compared with zero exactly; where
    the coordinate type computes that difference without overflow, it is
    the sign of the difference of the two coordinates. *)
Theorem non_duplicate_section_directions
    (minus : coordinate_type -> coordinate_type -> coordinate_type)
    (equals : coordinate_type -> coordinate_type -> bool)
    (point_dimension DimensionCount MaxCount : nat)
    (Closure : closure_selector) (range : list Point) (sections : Sections)
    (ring_index' multi_index' : Z) :
  let view := closeable_view Closure range in
  forall s,
    s ∈ produced_sections minus equals point_dimension DimensionCount MaxCount
          Closure range sections ring_index' multi_index' ->
    duplicate s = false ->
    forall j : nat, (begin_index s <= Z.of_nat j < end_index s)%Z ->
      get_direction_loop minus (segment_at view j) 0 DimensionCount
        (replicate DimensionCount 0%Z) = directions s
      /\ forall d, d < DimensionCount ->
           let start := get d (point_at view j) in
           let finish := get d (point_at view (S j)) in
           nth d (directions s) 0%Z = Z.sgn (minus finish start)
           /\ (minus finish start = (finish - start)%Z ->
               nth d (directions s) 0%Z = Z.sgn (finish - start)).
Proof.
  cbv zeta. intros s Hs Hdup j Hj.
  destruct (produced_covers _ _ _ _ _ _ _ _ _ _ s Hs) as (b & e & Hc).
  set (view := closeable_view Closure range) in *.
  rewrite (cov_begin Hc), (cov_end Hc) in Hj.
  destruct (decide (DimensionCount = 0)) as [Hzero | Hpos].
  { (* no tracked dimension: both vectors are empty *)
    pose proof (covers_directions_length _ _ _ _ _ _ _ _ _ _ _ Hc) as Hlen.
    rewrite get_direction_loop_spec by apply length_replicate.
    split; [| intros d Hd; lia].
    rewrite Hzero in *. destruct (directions s); [done | discriminate Hlen]. }
  assert (HD : 0 < DimensionCount) by lia.
  pose proof (cov_first Hc) as Hfirst. rewrite Hdup in Hfirst.
  pose proof (cov_classes Hc j ltac:(lia)) as Hcls.
  pose proof (segment_classes_regular minus equals point_dimension DimensionCount
                (segment_at view b)) as Hb.
  rewrite Hfirst in Hb. simpl in Hb. specialize (Hb eq_refl).
  assert (Hreg : fst (segment_classes minus equals point_dimension DimensionCount
                        (segment_at view j)) = false).
  { apply not_true_iff_false. intros Hd.
    apply segment_classes_duplicate in Hd.
    rewrite Hcls, Hb in Hd.
    by apply sentinel_not_direction_vector in Hd. }
  apply segment_classes_regular in Hreg.
  rewrite Hcls in Hreg.
  rewrite get_direction_loop_spec by apply length_replicate.
  split; [done |].
  intros d Hd. rewrite Hreg, nth_direction_vector by done.
  split; [done |]. unfold seg_diff. cbn [seg_get segment_at first second].
  by intros ->.
Qed.

(** C9 (bounding-box containment).  A section under construction starts
    with the inverted sentinel box; the box of a produced section is the
    sentinel grown by [combine] with exactly the [count + 1] points of its
    segments, in order; and both end points of every segment of the
    section lie within that box. *)
Theorem bounding_box_contains_segments
    (minus : coordinate_type -> coordinate_type -> coordinate_type)
    (equals : coordinate_type -> coordinate_type -> bool)
    (point_dimension DimensionCount MaxCount : nat)
    (Closure : closure_selector) (range : list Point) (sections : Sections)
    (ring_index' multi_index' : Z) :
  let view := closeable_view Closure range in
  bounding_box (section_type DimensionCount) = assign_inverse
  /\ forall s,
       s ∈ produced_sections minus equals point_dimension DimensionCount MaxCount
             Closure range sections ring_index' multi_index' ->
       bounding_box s
       = foldl (combine point_dimension) assign_inverse
           (take (S (count s)) (drop (Z.to_nat (begin_index s)) view))
       /\ forall j : nat, (begin_index s <= Z.of_nat j < end_index s)%Z ->
            within_box point_dimension (point_at view j) (bounding_box s) = true
            /\ within_box point_dimension (point_at view (S j)) (bounding_box s)
               = true.
Proof.
  cbv zeta. split; [done |]. intros s Hs.
  destruct (produced_covers _ _ _ _ _ _ _ _ _ _ s Hs) as (b & e & Hc).
  set (view := closeable_view Closure range) in *.
  pose proof (cov_nonempty Hc) as Hne. pose proof (cov_inside Hc) as Hin.
  pose proof (cov_box Hc) as Hbox.
  rewrite (cov_begin Hc), (cov_end Hc), (cov_count Hc), Nat2Z.id.
  split; [done |].
  assert (Hpt : forall i, b <= i <= e ->
            within_box point_dimension (point_at view i) (bounding_box s) = true).
  { intros i Hi. rewrite Hbox. apply within_foldl_elem.
    apply list_elem_of_lookup. exists (i - b).
    rewrite lookup_take_lt by lia. rewrite lookup_drop.
    replace (b + (i - b)) with i by lia. apply lookup_point_at. lia. }
  intros j Hj. split; apply Hpt; lia.
Qed.

(** With [int] coordinates the difference of the least and the greatest
    value overflows: the segment from [INT_MIN] to [INT_MAX] is classified
    as going down, the one from [INT_MAX] to [INT_MIN] as going up. *)
Example int_difference_overflows :
  get_direction_loop int_minus (Segment [INT_MIN; 0%Z] [INT_MAX; 0%Z]) 0 2
    (replicate 2 0%Z) = [-1; 0]%Z
  /\ get_direction_loop int_minus (Segment [INT_MAX; 0%Z] [INT_MIN; 0%Z]) 0 2
       (replicate 2 0%Z) = [1; 0]%Z
  /\ get_direction_loop Z.sub (Segment [INT_MIN; 0%Z] [INT_MAX; 0%Z]) 0 2
       (replicate 2 0%Z) = [1; 0]%Z.
Proof. split; [| split]; reflexivity. Qed.

(** Within the range of [int], [int_minus] is the exact difference as
    long as that difference is in the range as well. *)
Lemma int_minus_exact (a b : Z) :
  (INT_MIN <= a - b <= INT_MAX)%Z -> int_minus a b = (a - b)%Z.
Proof.
  unfold int_minus, INT_MIN, INT_MAX. intros H.
  rewrite Z.mod_small; lia.
Qed.

(** The second side of the square, from (0,10) to (10,10), has the
    directions [1; 0] of its section. *)
Lemma non_duplicate_section_directions_witness :
  get_direction_loop Z.sub (segment_at (closeable_view closed square) 1) 0 2
    (replicate 2 0%Z) = [1; 0]%Z.
Proof.
  pose (s1 := {| id := -1; directions := [1; 0]%Z; ring_index := -1;
                 multi_index := -1;
                 bounding_box := corners_box [0; 10]%Z [10; 10]%Z;
                 begin_index := 1; end_index := 2; count := 1;
                 range_count := 5; duplicate := false;
                 non_duplicate_index := 1 |}).
  change [1; 0]%Z with (directions s1).
  apply (non_duplicate_section_directions Z.sub Z.eqb 2 2 10 closed square []
           (-1) (-1) s1).
  - apply list_elem_of_lookup. exists 1. reflexivity.
  - reflexivity.
  - simpl. lia.
Defined.

(** C3 (run-length bound).  No section produced for a range holds more
    than [MaxCount + 1] segments, and no section of [sectionalize] more
    than [max_segments_per_section + 1].  The section in progress is
    pushed in front of a segment exactly when it is non-empty and the
    segment's classes differ from its directions or its count already
    exceeds [MaxCount]; accordingly a produced section followed by another
    one either differs from it in direction or holds exactly
    [MaxCount + 1] segments, and a straight line of twelve segments does
    produce a section of [max_segments_per_section + 1] segments. *)
Theorem section_count_bound
    (minus : coordinate_type -> coordinate_type -> coordinate_type)
    (equals : coordinate_type -> coordinate_type -> bool)
    (point_dimension DimensionCount : nat) :
  (forall MaxCount Closure range sections ri mi s,
      s ∈ produced_sections minus equals point_dimension DimensionCount MaxCount
            Closure range sections ri mi ->
      count s <= MaxCount + 1)
  /\ (forall geometry sections s,
        s ∈ sectionalize minus equals point_dimension DimensionCount geometry
              sections ->
        count s <= max_segments_per_section + 1)
  /\ (forall MaxCount sec direction_classes,
        flush_condition DimensionCount MaxCount sec direction_classes = true
        <-> 0 < count sec
            /\ (compare_loop 0 DimensionCount direction_classes (directions sec)
                 = false
                \/ MaxCount < count sec))
  /\ (forall MaxCount Closure range sections ri mi i s t,
        produced_sections minus equals point_dimension DimensionCount MaxCount
          Closure range sections ri mi !! i = Some s ->
        produced_sections minus equals point_dimension DimensionCount MaxCount
          Closure range sections ri mi !! S i = Some t ->
        directions t <> directions s \/ count s = MaxCount + 1)
  /\ (exists s,
        s ∈ sectionalize Z.sub Z.eqb 2 2 (linestring_tag straight_line) []
        /\ count s = max_segments_per_section + 1).
Proof.
  split.
  { intros MaxCount Closure range sections ri mi s Hs.
    destruct (produced_covers _ _ _ _ _ _ _ _ _ _ s Hs) as (b & e & Hc).
    pose proof (cov_max Hc). lia. }
  split.
  { intros geometry sections s Hs.
    apply sectionalize_well_formed in Hs. destruct Hs. lia. }
  split.
  { intros MaxCount sec cls. unfold flush_condition.
    rewrite andb_true_iff, orb_true_iff, negb_true_iff, !Nat.ltb_lt. done. }
  split.
  { intros MaxCount Closure range sections ri mi i s t Hi Hj.
    destruct (produced_next _ _ _ _ _ _ _ _ _ _ i s t Hi Hj)
      as (b & m & e & Hc & Hc' & [Hdiff | Hfull]).
    - left. pose proof (cov_first Hc') as Hfirst.
      rewrite Hfirst in Hdiff. done.
    - right. pose proof (cov_max Hc). lia. }
  eexists. split.
  - apply list_elem_of_lookup. exists 0. vm_compute. reflexivity.
  - reflexivity.
Qed.

(** C10.  Every section pushed into the collection, by the range
    sectionizer or by [sectionalize] for any geometry, holds at least one
    segment, begins at a non-negative index, and its index range has
    exactly [count] elements. *)
Theorem pushed_sections_nonempty
    (minus : coordinate_type -> coordinate_type -> coordinate_type)
    (equals : coordinate_type -> coordinate_type -> bool)
    (point_dimension DimensionCount : nat) :
  (forall MaxCount Closure range sections ri mi s,
      s ∈ produced_sections minus equals point_dimension DimensionCount MaxCount
            Closure range sections ri mi ->
      1 <= count s /\ (0 <= begin_index s)%Z
      /\ (end_index s - begin_index s)%Z = Z.of_nat (count s))
  /\ (forall geometry sections s,
        s ∈ sectionalize minus equals point_dimension DimensionCount geometry
              sections ->
        1 <= count s /\ (0 <= begin_index s)%Z
        /\ (end_index s - begin_index s)%Z = Z.of_nat (count s)).
Proof.
  split.
  - intros MaxCount Closure range sections ri mi s Hs.
    destruct (produced_covers _ _ _ _ _ _ _ _ _ _ s Hs) as (b & e & Hc).
    apply covers_well_formed in Hc. destruct Hc. repeat split; [lia | done | done].
  - intros geometry sections s Hs.
    apply sectionalize_well_formed in Hs. destruct Hs.
    repeat split; [lia | done | done].
Qed.

(** C7 (ids).  After [sectionalize] the ids of the collection are
    0, 1, 2, ... in output order, and the result does not depend on what
    the collection held on entry: it is cleared first. *)
Theorem section_ids_in_output_order
    (minus : coordinate_type -> coordinate_type -> coordinate_type)
    (equals : coordinate_type -> coordinate_type -> bool)
    (point_dimension DimensionCount : nat)
    (geometry : Geometry) (sections : Sections) :
  let out := sectionalize minus equals point_dimension DimensionCount geometry sections in
  map id out = map Z.of_nat (seq 0 (length out))
  /\ (forall i s, out !! i = Some s -> id s = Z.of_nat i)
  /\ out = sectionalize minus equals point_dimension DimensionCount geometry [].
Proof.
  intros out.
  assert (Hids : map id out = map Z.of_nat (seq 0 (length out))).
  { unfold out, sectionalize, set_section_unique_ids.
    rewrite set_ids_loop_ids, length_set_ids_loop. by apply map_ext. }
  split; [done |]. split; [| done].
  intros i s Hi. apply set_ids_loop_lookup in Hi. lia.
Qed.

(** C8, as the code has it.  The directions of a section of
    [sectionalize] are [DimensionCount] entries; they are signs in
    {-1, 0, 1} when the section is not a duplicate, and all -99 when it
    is. *)
Theorem section_directions_values
    (minus : coordinate_type -> coordinate_type -> coordinate_type)
    (equals : coordinate_type -> coordinate_type -> bool)
    (point_dimension DimensionCount : nat)
    (geometry : Geometry) (sections : Sections) (s : section) :
  s ∈ sectionalize minus equals point_dimension DimensionCount geometry sections ->
  length (directions s) = DimensionCount
  /\ (duplicate s = false ->
      forall x, x ∈ directions s -> x = (-1)%Z \/ x = 0%Z \/ x = 1%Z)
  /\ (duplicate s = true -> directions s = replicate DimensionCount (-99)%Z).
Proof.
  intros Hs. apply sectionalize_well_formed in Hs. by destruct Hs.
Qed.

(** The section of two coincident points is a duplicate: two entries, both
    the sentinel. *)
Lemma section_directions_values_witness :
  length [-99; -99]%Z = 2
  /\ (true = false ->
      forall x, x ∈ [-99; -99]%Z -> x = (-1)%Z \/ x = 0%Z \/ x = 1%Z)
  /\ (true = true -> [-99; -99]%Z = replicate 2 (-99)%Z).
Proof.
  pose (s0 := {| id := 0; directions := [-99; -99]%Z; ring_index := -1;
                 multi_index := -1;
                 bounding_box := corners_box [1; 1]%Z [1; 1]%Z;
                 begin_index := 0; end_index := 1; count := 1;
                 range_count := 2; duplicate := true;
                 non_duplicate_index := 0 |}).
  apply (section_directions_values Z.sub Z.eqb 2 2 (linestring_tag coincident_pair)
           [] s0).
  apply list_elem_of_lookup. exists 0. reflexivity.
Defined.

(** C8 as stated fails: the single section of two coincident points has
    directions -99, -99. *)
Lemma section_directions_counterexample :
  ~ directions_are_signs
      (sectionalize Z.sub Z.eqb 2 2 (linestring_tag coincident_pair) []).
Proof.
  intros H.
  pose (s0 := {| id := 0; directions := [-99; -99]%Z; ring_index := -1;
                 multi_index := -1;
                 bounding_box := corners_box [1; 1]%Z [1; 1]%Z;
                 begin_index := 0; end_index := 1; count := 1;
                 range_count := 2; duplicate := true;
                 non_duplicate_index := 0 |}).
  assert (Hs : s0 ∈ sectionalize Z.sub Z.eqb 2 2 (linestring_tag coincident_pair) []).
  { apply list_elem_of_lookup. exists 0. reflexivity. }
  specialize (H s0 Hs (-99)%Z). simpl in H.
  assert (Hx : (-99)%Z ∈ [-99; -99]%Z) by (apply elem_of_cons; by left).
  apply H in Hx. lia.
Qed.

(** C6, as the code has it.  The range sectionizer counts the points of
    the closing view.  The view has zero or one point exactly for a range
    of at most one point whose closing point is not appended and for an
    empty range; in that case, and in no other, no section is produced:
    the collection is returned unchanged, as an ordinary result. *)
Theorem degenerate_view_no_sections
    (minus : coordinate_type -> coordinate_type -> coordinate_type)
    (equals : coordinate_type -> coordinate_type -> bool)
    (point_dimension DimensionCount MaxCount : nat)
    (Closure : closure_selector) (range : list Point) (sections : Sections)
    (ring_index' multi_index' : Z) :
  (length (closeable_view Closure range) <= 1
   <-> (Closure = closed /\ length range <= 1) \/ range = [])
  /\ (length (closeable_view Closure range) <= 1 ->
      sectionalize_range minus equals point_dimension DimensionCount MaxCount
        Closure range sections ring_index' multi_index' = sections)
  /\ (produced_sections minus equals point_dimension DimensionCount MaxCount
        Closure range sections ring_index' multi_index' = []
      <-> length (closeable_view Closure range) <= 1).
Proof.
  assert (H : length (closeable_view Closure range) <= 1 -> forall ss,
    sectionalize_range minus equals point_dimension DimensionCount MaxCount
      Closure range ss ring_index' multi_index' = ss).
  { intros Hview ss. unfold sectionalize_range.
    destruct (length (closeable_view Closure range)) as [| [| n]]; [done | done | lia]. }
  split.
  { destruct Closure; simpl.
    - destruct range as [| p range]; simpl.
      + split; [intros _; by right | lia].
      + rewrite length_app. simpl. split; [lia |].
        intros [[Hc _] | Hnil]; discriminate.
    - split; [intros Hlen; by left |].
      intros [[_ Hlen] | ->]; [done | simpl; lia]. }
  split; [intros Hview; by apply H |].
  split.
  - intros Hnil.
    pose proof (produced_tiles minus equals point_dimension DimensionCount MaxCount
                  Closure range sections ring_index' multi_index') as Ht.
    rewrite Hnil in Ht. simpl in Ht. lia.
  - intros Hview. rewrite produced_sections_fresh. by apply H.
Qed.

(** A single point, no closing point appended: no section. *)
Lemma degenerate_view_no_sections_witness :
  length (closeable_view closed [[1; 1]%Z]) <= 1
  /\ sectionalize_range Z.sub Z.eqb 2 2 10 closed [[1; 1]%Z] [] (-1) (-1) = [].
Proof.
  assert (Hview : length (closeable_view closed [[1; 1]%Z]) <= 1) by (simpl; lia).
  split; [exact Hview |].
  exact (proj1 (proj2 (degenerate_view_no_sections Z.sub Z.eqb 2 2 10 closed
                         [[1; 1]%Z] [] (-1) (-1))) Hview).
Defined.

(** A ring of [N >= 1] points whose closing point is appended has [N]
    segments; with one point this is one zero-length segment, for which
    one section is produced. *)
Lemma one_point_open_ring_section
    (minus : coordinate_type -> coordinate_type -> coordinate_type)
    (equals : coordinate_type -> coordinate_type -> bool)
    (point_dimension DimensionCount MaxCount : nat)
    (p : Point) (sections : Sections) (ring_index' multi_index' : Z) :
  length (produced_sections minus equals point_dimension DimensionCount MaxCount
            open [p] sections ring_index' multi_index') = 1.
Proof.
  pose proof (produced_tiles minus equals point_dimension DimensionCount MaxCount
                open [p] sections ring_index' multi_index') as Ht.
  destruct (produced_sections _ _ _ _ _ _ _ _ _ _) as [| s rest]; simpl in Ht; [lia |].
  destruct Ht as (m & Hc & _ & Ht).
  pose proof (cov_nonempty Hc). pose proof (cov_inside Hc) as Hin. simpl in Hin.
  destruct rest as [| t rest]; [done |].
  simpl in Ht. destruct Ht as (m' & Hc' & _).
  pose proof (cov_nonempty Hc'). pose proof (cov_inside Hc') as Hin'. simpl in Hin'.
  lia.
Qed.

(** C6 as stated fails: a one-point range whose closing point is appended
    yields a section. *)
Lemma one_point_range_counterexample :
  length [[1; 1]%Z] <= 1
  /\ sectionalize_range Z.sub Z.eqb 2 2 10 open [[1; 1]%Z] [] (-1) (-1) <> [].
Proof. split; [simpl; lia | discriminate]. Qed.

(** C4, as the code has it.  With at least one tracked dimension:
    - a segment whose dimension-0 sign is not 0 is classified without the
      duplicate detector: it is no duplicate and keeps its direction
      classes, whatever [equals] is;
    - when the dimension-0 sign is 0 the duplicate flag is the detector's
      answer, the [equals]-to-zero test of the coordinate difference over
      all [point_dimension] dimensions of the point type;
    - the classes of a duplicate are all -99, those of any other segment
      are signs in {-1, 0, 1};
    - in the sections of a range, a non-duplicate segment that follows a
      duplicate one begins a section of its own;
    - a duplicate segment that follows a duplicate one lies in the same
      duplicate section, unless that section already holds
      [MaxCount + 1] segments. *)
Theorem duplicate_detector_sentinel
    (minus : coordinate_type -> coordinate_type -> coordinate_type)
    (equals : coordinate_type -> coordinate_type -> bool)
    (point_dimension DimensionCount MaxCount : nat)
    (HD : 0 < DimensionCount) :
  (forall seg,
      nth 0 (get_direction_loop minus seg 0 DimensionCount
               (replicate DimensionCount 0%Z)) 0%Z <> 0%Z ->
      segment_classes minus equals point_dimension DimensionCount seg
      = (false, get_direction_loop minus seg 0 DimensionCount
                  (replicate DimensionCount 0%Z)))
  /\ (forall seg,
        nth 0 (get_direction_loop minus seg 0 DimensionCount
                 (replicate DimensionCount 0%Z)) 0%Z = 0%Z ->
        fst (segment_classes minus equals point_dimension DimensionCount seg)
        = check_duplicate_loop minus equals seg 0 point_dimension
        /\ check_duplicate_loop minus equals seg 0 point_dimension
           = forallb
               (fun d => equals (minus (seg_get 1 d seg) (seg_get 0 d seg)) 0%Z)
               (seq 0 point_dimension))
  /\ (forall seg,
        fst (segment_classes minus equals point_dimension DimensionCount seg) = true ->
        snd (segment_classes minus equals point_dimension DimensionCount seg)
        = replicate DimensionCount (-99)%Z)
  /\ (forall seg,
        fst (segment_classes minus equals point_dimension DimensionCount seg) = false ->
        snd (segment_classes minus equals point_dimension DimensionCount seg)
        = get_direction_loop minus seg 0 DimensionCount (replicate DimensionCount 0%Z)
        /\ forall x,
             x ∈ snd (segment_classes minus equals point_dimension
                        DimensionCount seg) ->
             x = (-1)%Z \/ x = 0%Z \/ x = 1%Z)
  /\ (forall Closure range sections ri mi j,
        S (S j) < length (closeable_view Closure range) ->
        duplicate_segment minus equals point_dimension DimensionCount
          (closeable_view Closure range) j = true ->
        duplicate_segment minus equals point_dimension DimensionCount
          (closeable_view Closure range) (S j) = false ->
        exists s,
          s ∈ produced_sections minus equals point_dimension DimensionCount MaxCount
                Closure range sections ri mi
          /\ begin_index s = Z.of_nat (S j) /\ duplicate s = false)
  /\ (forall Closure range sections ri mi j s,
        S (S j) < length (closeable_view Closure range) ->
        duplicate_segment minus equals point_dimension DimensionCount
          (closeable_view Closure range) j = true ->
        duplicate_segment minus equals point_dimension DimensionCount
          (closeable_view Closure range) (S j) = true ->
        s ∈ produced_sections minus equals point_dimension DimensionCount MaxCount
              Closure range sections ri mi ->
        (begin_index s <= Z.of_nat j < end_index s)%Z ->
        duplicate s = true
        /\ ((Z.of_nat j + 2 <= end_index s)%Z \/ count s = MaxCount + 1)).
Proof.
  split.
  { intros seg Hnz. unfold segment_classes.
    by destruct (Z.eqb_spec (nth 0 (get_direction_loop minus seg 0 DimensionCount
                                     (replicate DimensionCount 0%Z)) 0%Z) 0%Z). }
  split.
  { intros seg Hz. split.
    - unfold segment_classes. rewrite Hz. simpl.
      by destruct (check_duplicate_loop minus equals seg 0 point_dimension).
    - apply check_duplicate_loop_spec. }
  split; [apply segment_classes_duplicate |].
  split.
  { intros seg Hreg.
    pose proof (segment_classes_regular minus equals point_dimension DimensionCount
                  seg Hreg) as Hdv.
    rewrite get_direction_loop_spec by apply length_replicate.
    split; [done |]. intros x Hx. rewrite Hdv in Hx.
    by apply direction_vector_range in Hx. }
  split.
  { intros Closure range sections ri mi j Hj Hdup Hreg.
    unfold duplicate_segment in *.
    destruct (tiles_cover _ _ _ _ _ _ _ _ _ _ _ (S j)
                (produced_tiles minus equals point_dimension DimensionCount MaxCount
                   Closure range sections ri mi) ltac:(lia))
      as (i & s & b & e & Hi & Hc & Hb).
    exists s. split; [apply list_elem_of_lookup; eauto |].
    assert (b = S j) as ->.
    { destruct (decide (b = S j)) as [| Hne]; [done |]. exfalso.
      pose proof (cov_classes Hc j ltac:(lia)) as H1.
      pose proof (cov_classes Hc (S j) ltac:(lia)) as H2.
      apply segment_classes_duplicate in Hdup.
      rewrite <- H1, Hdup in H2.
      apply segment_classes_sentinel in H2; [congruence | done]. }
    split; [apply (cov_begin Hc) |].
    pose proof (cov_first Hc) as Hfirst. rewrite <- Hreg. by rewrite Hfirst. }
  intros Closure range sections ri mi j s Hj Hdup Hdup' Hs Hin.
  unfold duplicate_segment in *.
  apply list_elem_of_lookup in Hs as [i Hi].
  destruct (produced_lookup _ _ _ _ _ _ _ _ _ _ i s Hi) as (b & e & Hc & Hr & _).
  rewrite (cov_begin Hc), (cov_end Hc) in Hin.
  pose proof (cov_classes Hc j ltac:(lia)) as Hcls.
  apply segment_classes_duplicate in Hdup, Hdup'.
  rewrite Hdup in Hcls.
  split.
  - pose proof (cov_first Hc) as Hfirst.
    pose proof (segment_classes_sentinel minus equals point_dimension DimensionCount
                  (segment_at (closeable_view Closure range) b) HD) as Hb.
    rewrite Hfirst in Hb. simpl in Hb. by apply Hb.
  - rewrite (cov_end Hc).
    destruct (decide (S j < e)) as [Hlt | Hge]; [left; lia | right].
    assert (e = S j) as -> by lia.
    destruct (Hr ltac:(lia)) as [Hdiff | Hfull].
    + exfalso. apply Hdiff. by rewrite Hdup'.
    + pose proof (cov_max Hc). lia.
Qed.

(** A zero-length segment in two tracked dimensions: its classes are
    overwritten by the sentinel. *)
Lemma duplicate_detector_sentinel_witness :
  0 < 2
  /\ snd (segment_classes Z.sub Z.eqb 2 2 (Segment [1; 1]%Z [1; 1]%Z))
     = replicate 2 (-99)%Z.
Proof.
  split; [lia |].
  apply (proj1 (proj2 (proj2
           (duplicate_detector_sentinel Z.sub Z.eqb 2 2 10 ltac:(lia))))).
  reflexivity.
Defined.

(** The detector looks at every dimension of the point type, also beyond
    the tracked ones: with one tracked dimension, a vertical segment is a
    duplicate for one-dimensional points only. *)
Example detector_uses_point_dimension :
  segment_classes Z.sub Z.eqb 2 1 (Segment [0; 0]%Z [0; 5]%Z) = (false, [0%Z])
  /\ segment_classes Z.sub Z.eqb 1 1 (Segment [0; 0]%Z [0; 5]%Z) = (true, [(-99)%Z]).
Proof. split; reflexivity. Qed.

(** C4 as stated fails in its last part: of thirteen coincident points,
    the duplicate segments 10 and 11 are consecutive but lie in different
    sections, the first of which holds eleven segments. *)
Lemma consecutive_duplicates_counterexample :
  ~ consecutive_duplicates_share_section Z.sub Z.eqb 2 2
      (closeable_view closed coincident_run)
      (sectionalize Z.sub Z.eqb 2 2 (linestring_tag coincident_run) []).
Proof.
  intros H.
  destruct (H 10) as (s & Hs & Hb & He).
  - simpl. lia.
  - reflexivity.
  - reflexivity.
  - apply list_elem_of_lookup in Hs as [i Hi].
    destruct i as [| [| i]]; vm_compute in Hi; [| | discriminate].
    + injection Hi as <-. simpl in He. lia.
    + injection Hi as <-. simpl in Hb. lia.
Qed.

(** ** The box sectionizer *)

Lemma sgn_eqb_false (a : Z) : a <> 0%Z -> (Z.sgn a =? 0)%Z = false.
Proof. intros H. apply Z.eqb_neq. by rewrite Z.sgn_null_iff. Qed.






Section BoxSectionizer.

Variable minus : coordinate_type -> coordinate_type -> coordinate_type.
Variable equals : coordinate_type -> coordinate_type -> bool.
Variable DimensionCount : nat.
Variable MaxCount : nat.
Variables x0 y0 x1 y1 : Z.
Hypothesis HD : 1 <= DimensionCount <= 2.
Hypothesis Hself : forall a, minus a a = 0%Z.
Hypothesis Hx : minus x1 x0 <> 0%Z.
Hypothesis Hx' : minus x0 x1 <> 0%Z.
Hypothesis Hy : equals (minus y1 y0) 0%Z = false.
Hypothesis Hy' : equals (minus y0 y1) 0%Z = false.

Abbreviation box_ring := (box_ring x0 y0 x1 y1).

Ltac side_classes :=
  rewrite segment_classes_spec;
  destruct DimensionCount as [| [| [| n]]]; try lia;
  unfold is_duplicate, direction_vector, seg_diff, segment_at, point_at, box_ring;
  cbn [seq map forallb seg_get get nth first second take];
  rewrite ?Hself, ?direction_sign_sgn, ?Hy, ?Hy';
  rewrite ?(sgn_eqb_false _ Hx), ?(sgn_eqb_false _ Hx');
  rewrite ?andb_false_r; reflexivity.

Lemma box_side_0 :
  segment_classes minus equals 2 DimensionCount (segment_at box_ring 0)
  = (false, take DimensionCount [0%Z; Z.sgn (minus y1 y0)]).
Proof using HD Hself Hy. side_classes. Qed.

Lemma box_side_1 :
  segment_classes minus equals 2 DimensionCount (segment_at box_ring 1)
  = (false, take DimensionCount [Z.sgn (minus x1 x0); 0%Z]).
Proof using HD Hself Hx. side_classes. Qed.

Lemma box_side_2 :
  segment_classes minus equals 2 DimensionCount (segment_at box_ring 2)
  = (false, take DimensionCount [0%Z; Z.sgn (minus y0 y1)]).
Proof using HD Hself Hy'. side_classes. Qed.

Lemma box_side_3 :
  segment_classes minus equals 2 DimensionCount (segment_at box_ring 3)
  = (false, take DimensionCount [Z.sgn (minus x0 x1); 0%Z]).
Proof using HD Hself Hx'. side_classes. Qed.




End BoxSectionizer.

(** Within the range of [int], the wrapped difference of two values is
    zero only if they are equal: for [int] coordinates a box of non-zero
    width has a non-zero computed width. *)
Lemma int_minus_eq_0 (a b : Z) :
  (INT_MIN <= a <= INT_MAX)%Z -> (INT_MIN <= b <= INT_MAX)%Z ->
  int_minus a b = 0%Z <-> a = b.
Proof.
  unfold int_minus, INT_MIN, INT_MAX. intros Ha Hb.
  pose proof (Z.div_mod (a - b + 2 ^ 31) (2 ^ 32) ltac:(lia)) as Hdm.
  pose proof (Z.mod_pos_bound (a - b + 2 ^ 31) (2 ^ 32) ltac:(lia)) as Hbound.
  split; [lia |]. intros ->.
  rewrite Z.sub_diag, Z.mod_small; lia.
Qed.




(** The sections of that box: the vertical sides are duplicates. *)
Example thin_box_sections :
  map (fun s => (duplicate s, directions s, count s))
    (sectionalize Z.sub tolerant_equals 2 2 (box_tag thin_box) [])
  = [(true, [-99; -99]%Z, 1); (false, [1; 0]%Z, 1);
     (true, [-99; -99]%Z, 1); (false, [-1; 0]%Z, 1)].
Proof. reflexivity. Qed.

(** * Further properties of the code *)

(** ** The per-dimension loops *)

Lemma map_nth_seq_drop (l : list Z) (k : nat) :
  k <= length l ->
  map (fun d => nth d l 0%Z) (seq k (length l - k)) = drop k l.
Proof.
  intros Hk. apply list_eq. intros i.
  change (map ?f ?x) with (f <$> x). rewrite list_lookup_fmap, lookup_drop.
  destruct (decide (k + i < length l)) as [Hi | Hi].
  - destruct (lookup_lt_is_Some_2 l (k + i) Hi) as [x Hx].
    rewrite (proj2 (lookup_seq k (length l - k) i (k + i))); [| split; [done | lia]].
    simpl. rewrite (nth_lookup_Some _ _ _ _ Hx). by rewrite Hx.
  - rewrite (lookup_ge_None_2 l (k + i)); [| lia].
    rewrite (lookup_ge_None_2 (seq k (length l - k)) i); [done |].
    rewrite length_seq. lia.
Qed.

(** X1.  On two arrays of [DimensionCount] entries, [compare_loop] started
    at [Dimension] answers whether the arrays agree from that dimension
    on; started at 0 it decides equality of the arrays. *)
Theorem compare_loop_decides_equality
    (Dimension DimensionCount : nat) (source target : list Z) :
  length source = DimensionCount -> length target = DimensionCount ->
  Dimension <= DimensionCount ->
  (compare_loop Dimension DimensionCount source target = true
   <-> drop Dimension source = drop Dimension target)
  /\ (compare_loop 0 DimensionCount source target = true <-> source = target).
Proof.
  intros Hs Ht Hk.
  assert (Hgen : forall k, k <= DimensionCount ->
            (compare_loop k DimensionCount source target = true
             <-> drop k source = drop k target)).
  { intros k Hk'. unfold compare_loop. rewrite compare_loop_rec_spec.
    rewrite <- (map_nth_seq_drop source k), <- (map_nth_seq_drop target k) by lia.
    rewrite Hs, Ht. split.
    - intros H. apply map_ext_in. intros d Hd%in_seq. symmetry. apply H. lia.
    - intros H d Hd.
      assert (Hin : In d (seq k (DimensionCount - k))) by (apply in_seq; lia).
      pose proof (proj1 map_ext_in_iff H d Hin) as Hd'. simpl in Hd'.
      done. }
  split; [by apply Hgen |].
  rewrite (Hgen 0) by lia. by rewrite !drop_0.
Qed.

(** Two direction arrays that differ in their second entry only. *)
Lemma compare_loop_decides_equality_witness :
  compare_loop 1 2 [1; 0]%Z [1; -1]%Z = false
  /\ (compare_loop 0 2 [1; 0]%Z [1; 0]%Z = true <-> [1; 0]%Z = [1; 0]%Z).
Proof.
  split; [reflexivity |].
  exact (proj2 (compare_loop_decides_equality 0 2 [1; 0]%Z [1; 0]%Z
                  eq_refl eq_refl (Nat.le_0_l 2))).
Defined.

(** X2.  On arrays of [DimensionCount] entries, [copy_loop] started at
    [Dimension] leaves the entries of the target below [Dimension] alone
    and copies the others from the source; started at 0 it makes the
    target equal to the source, so that [compare_loop] then accepts the
    pair. *)
Theorem copy_loop_copies
    (Dimension DimensionCount : nat) (source target : list Z) :
  length source = DimensionCount -> length target = DimensionCount ->
  Dimension <= DimensionCount ->
  copy_loop Dimension DimensionCount source target
  = take Dimension target ++ drop Dimension source
  /\ copy_loop 0 DimensionCount source target = source
  /\ compare_loop 0 DimensionCount source
       (copy_loop 0 DimensionCount source target) = true.
Proof.
  intros Hs Ht Hk.
  assert (Hzero : copy_loop 0 DimensionCount source target = source)
    by by apply copy_loop_spec.
  split; [| split; [done |]].
  - unfold copy_loop. rewrite copy_loop_rec_spec by lia.
    rewrite <- Hs. by rewrite map_nth_seq_drop by lia.
  - rewrite Hzero. by apply (compare_loop_spec DimensionCount).
Qed.

(** The classes [1; -1] copied over the zeroed directions of a new
    section. *)
Lemma copy_loop_copies_witness :
  copy_loop 1 2 [1; -1]%Z [0; 0]%Z = take 1 [0; 0]%Z ++ drop 1 [1; -1]%Z
  /\ copy_loop 0 2 [1; -1]%Z [0; 0]%Z = [1; -1]%Z
  /\ compare_loop 0 2 [1; -1]%Z (copy_loop 0 2 [1; -1]%Z [0; 0]%Z) = true.
Proof.
  exact (copy_loop_copies 1 2 [1; -1]%Z [0; 0]%Z eq_refl eq_refl
           (Nat.le_succ_diag_r 1)).
Defined.

(** X3.  On an array of [DimensionCount] entries, [assign_loop] started at
    [Dimension] overwrites the entries from [Dimension] on with the value
    and leaves the others alone; started at 0 the result is the value
    repeated [DimensionCount] times, whatever the array held. *)
Theorem assign_loop_fills
    (Dimension DimensionCount : nat) (dims : list Z) (value : Z) :
  length dims = DimensionCount -> Dimension <= DimensionCount ->
  assign_loop Dimension DimensionCount dims value
  = take Dimension dims ++ replicate (DimensionCount - Dimension) value
  /\ assign_loop 0 DimensionCount dims value = replicate DimensionCount value.
Proof.
  intros Hlen Hk. split.
  - unfold assign_loop. by rewrite assign_loop_rec_spec by lia.
  - by apply assign_loop_spec.
Qed.

(** The sentinel written over the classes [0; 1]. *)
Lemma assign_loop_fills_witness :
  assign_loop 1 2 [0; 1]%Z (-99) = take 1 [0; 1]%Z ++ replicate (2 - 1) (-99)%Z
  /\ assign_loop 0 2 [0; 1]%Z (-99) = replicate 2 (-99)%Z.
Proof.
  exact (assign_loop_fills 1 2 [0; 1]%Z (-99) eq_refl (Nat.le_succ_diag_r 1)).
Defined.

(** X4.  Filling an array of [DimensionCount] entries, [get_direction_loop]
    stores in entry [d] the sign of the difference of the end and start
    coordinates along dimension [d] as the coordinate type computes it,
    whatever the array held.  In a dimension where that difference is
    computed without overflow the entry is the sign of the difference of
    the two coordinates; and when in every tracked dimension the
    difference taken the other way round is the opposite value, the
    segment taken in the other direction gets the opposite signs. *)
Theorem get_direction_loop_signs
    (minus : coordinate_type -> coordinate_type -> coordinate_type)
    (DimensionCount : nat) (p q : Point) (l : list Z) :
  length l = DimensionCount ->
  length (get_direction_loop minus (Segment p q) 0 DimensionCount l)
  = DimensionCount
  /\ (forall d, d < DimensionCount ->
        nth d (get_direction_loop minus (Segment p q) 0 DimensionCount l) 0%Z
        = Z.sgn (minus (get d q) (get d p)))
  /\ (forall d, d < DimensionCount ->
        minus (get d q) (get d p) = (get d q - get d p)%Z ->
        nth d (get_direction_loop minus (Segment p q) 0 DimensionCount l) 0%Z
        = Z.sgn (get d q - get d p))
  /\ ((forall d, d < DimensionCount ->
         minus (get d p) (get d q) = (- minus (get d q) (get d p))%Z) ->
      get_direction_loop minus (Segment q p) 0 DimensionCount l
      = map Z.opp (get_direction_loop minus (Segment p q) 0 DimensionCount l)).
Proof.
  intros Hlen. rewrite !get_direction_loop_spec by done.
  assert (Hnth : forall d, d < DimensionCount ->
            nth d (direction_vector minus DimensionCount (Segment p q)) 0%Z
            = Z.sgn (minus (get d q) (get d p))).
  { intros d Hd. by rewrite nth_direction_vector. }
  split; [apply length_direction_vector |].
  split; [exact Hnth |].
  split; [intros d Hd Hexact; by rewrite Hnth, Hexact |].
  intros Hopp. unfold direction_vector. rewrite map_map.
  apply map_ext_in. intros d Hd%in_seq.
  rewrite !direction_sign_sgn. unfold seg_diff. simpl.
  rewrite Hopp by lia. apply Z.sgn_opp.
Qed.

(** A segment going right and down, and the same segment reversed, with
    exact coordinates. *)
Lemma get_direction_loop_signs_witness :
  length [0; 0]%Z = 2
  /\ (forall d, d < 2 ->
        (get d [0; 5] - get d [4; 1] = - (get d [4; 1] - get d [0; 5]))%Z)
  /\ get_direction_loop Z.sub (Segment [4; 1]%Z [0; 5]%Z) 0 2 [0; 0]%Z
     = map Z.opp
         (get_direction_loop Z.sub (Segment [0; 5]%Z [4; 1]%Z) 0 2 [0; 0]%Z).
Proof.
  assert (Hlen : length [0; 0]%Z = 2) by reflexivity.
  assert (Hopp : forall d, d < 2 ->
            (get d [0; 5] - get d [4; 1] = - (get d [4; 1] - get d [0; 5]))%Z)
    by (intros d Hd; lia).
  split; [exact Hlen |]. split; [exact Hopp |].
  exact (proj2 (proj2 (proj2 (get_direction_loop_signs Z.sub 2 [0; 5]%Z
                                [4; 1]%Z [0; 0]%Z Hlen))) Hopp).
Defined.

(** With [int] coordinates the difference of 0 and [INT_MIN] is [INT_MIN]
    both ways round: the segment and the reversed segment get the same
    sign. *)
Example int_reversed_segment_same_sign :
  get_direction_loop int_minus (Segment [0%Z] [INT_MIN]) 0 1 [0%Z] = [(-1)%Z]
  /\ get_direction_loop int_minus (Segment [INT_MIN] [0%Z]) 0 1 [0%Z]
     = [(-1)%Z].
Proof. split; reflexivity. Qed.

(** X5.  When [equals] is exact (a difference is [equals] to zero only if
    it is zero) and the subtraction of the coordinate type gives zero
    exactly for equal coordinates of the two points, the duplicate
    detector accepts a segment exactly when its two points agree in every
    dimension of the point type; it accepts the segment from the start
    point to itself and does not depend on the orientation of the
    segment.  With at least one point dimension the duplicate flag of the
    loop body is then this answer. *)
Theorem check_duplicate_loop_exact
    (minus : coordinate_type -> coordinate_type -> coordinate_type)
    (equals : coordinate_type -> coordinate_type -> bool)
    (point_dimension DimensionCount : nat) (p q : Point)
    (Hexact : forall a, equals a 0%Z = true <-> a = 0%Z)
    (Hminus : separates minus point_dimension p q) :
  (check_duplicate_loop minus equals (Segment p q) 0 point_dimension = true
   <-> forall d, d < point_dimension -> get d p = get d q)
  /\ check_duplicate_loop minus equals (Segment p p) 0 point_dimension = true
  /\ check_duplicate_loop minus equals (Segment q p) 0 point_dimension
     = check_duplicate_loop minus equals (Segment p q) 0 point_dimension
  /\ (1 <= point_dimension ->
      (fst (segment_classes minus equals point_dimension DimensionCount
              (Segment p q)) = true
       <-> forall d, d < point_dimension -> get d p = get d q)).
Proof.
  assert (Hall : forall a b,
    check_duplicate_loop minus equals (Segment a b) 0 point_dimension = true
    <-> forall d, d < point_dimension -> minus (get d b) (get d a) = 0%Z).
  { intros a b. rewrite check_duplicate_loop_spec. unfold is_duplicate.
    rewrite forallb_forall. unfold seg_diff. simpl. split.
    - intros H d Hd. apply Hexact, H, in_seq. lia.
    - intros H d Hd%in_seq. apply Hexact, H. lia. }
  assert (Hpq :
    check_duplicate_loop minus equals (Segment p q) 0 point_dimension = true
    <-> forall d, d < point_dimension -> get d p = get d q).
  { rewrite Hall. split; intros H d Hd;
      destruct (Hminus d Hd) as (_ & Hiff & _); apply Hiff; by apply H. }
  assert (Hqp :
    check_duplicate_loop minus equals (Segment q p) 0 point_dimension = true
    <-> forall d, d < point_dimension -> get d p = get d q).
  { rewrite Hall. split; intros H d Hd;
      destruct (Hminus d Hd) as (_ & _ & Hiff); apply Hiff; by apply H. }
  split; [exact Hpq |].
  split; [apply Hall; intros d Hd; apply (Hminus d Hd) |].
  split.
  { apply eq_true_iff_eq. by rewrite Hpq, Hqp. }
  intros HP. rewrite <- Hpq, segment_classes_spec, check_duplicate_loop_spec.
  destruct (is_duplicate minus equals point_dimension (Segment p q)) eqn:E.
  - rewrite andb_true_r.
    assert (H0 : seg_diff minus (Segment p q) 0 = 0%Z).
    { unfold is_duplicate in E. rewrite forallb_forall in E.
      apply Hexact, E, in_seq. lia. }
    destruct DimensionCount as [| n]; [done |].
    unfold direction_vector. cbn [seq map nth].
    rewrite H0. simpl. done.
  - rewrite andb_false_r. simpl. done.
Qed.

(** Exact subtraction and exact integer equality, two-dimensional points:
    a vertical segment is no duplicate. *)
Lemma check_duplicate_loop_exact_witness :
  (forall a, (a =? 0)%Z = true <-> a = 0%Z)
  /\ separates Z.sub 2 [0; 0]%Z [0; 5]%Z
  /\ (check_duplicate_loop Z.sub Z.eqb (Segment [0; 0]%Z [0; 5]%Z) 0 2 = true
      <-> forall d, d < 2 -> get d [0; 0]%Z = get d [0; 5]%Z).
Proof.
  assert (Hexact : forall a, (a =? 0)%Z = true <-> a = 0%Z)
    by (intros a; apply Z.eqb_eq).
  assert (Hminus : separates Z.sub 2 [0; 0]%Z [0; 5]%Z)
    by (intros d Hd; lia).
  split; [exact Hexact |]. split; [exact Hminus |].
  exact (proj1 (check_duplicate_loop_exact Z.sub Z.eqb 2 2 [0; 0]%Z [0; 5]%Z
                  Hexact Hminus)).
Defined.

(** The exact difference tells equal coordinates from different ones. *)
Lemma exact_minus_separates (point_dimension : nat) (p q : Point) :
  separates Z.sub point_dimension p q.
Proof. intros d Hd. lia. Qed.

(** [int] coordinates: the wrapped difference tells equal coordinates
    from different ones as long as the points are in the range of
    [int]. *)
Lemma int_minus_separates (point_dimension : nat) (p q : Point) :
  (forall d, d < point_dimension ->
     (INT_MIN <= get d p <= INT_MAX)%Z /\ (INT_MIN <= get d q <= INT_MAX)%Z) ->
  separates int_minus point_dimension p q.
Proof.
  intros Hrange d Hd. destruct (Hrange d Hd) as [Hp Hq].
  split; [by apply int_minus_eq_0 |].
  split.
  - rewrite int_minus_eq_0 by done. split; intros H; by symmetry.
  - by rewrite int_minus_eq_0.
Qed.

(** ** The sections of a range, continued *)

Lemma covers_segment_classes
    (minus : coordinate_type -> coordinate_type -> coordinate_type)
    (equals : coordinate_type -> coordinate_type -> bool)
    (point_dimension DimensionCount MaxCount : nat)
    (view : list Point) (ri mi : Z) (s : section) (b e j : nat) :
  0 < DimensionCount ->
  covers minus equals point_dimension DimensionCount MaxCount view ri mi s b e ->
  b <= j < e ->
  segment_classes minus equals point_dimension DimensionCount (segment_at view j)
  = (duplicate s, directions s).
Proof.
  intros HD Hc Hj.
  pose proof (cov_first Hc) as Hfirst.
  pose proof (cov_classes Hc j Hj) as Hcls.
  destruct (segment_classes minus equals point_dimension DimensionCount
              (segment_at view j)) as [dup cls] eqn:E.
  simpl in Hcls. subst cls. f_equal.
  pose proof (segment_classes_duplicate minus equals point_dimension DimensionCount
                (segment_at view j)) as Hj1.
  pose proof (segment_classes_sentinel minus equals point_dimension DimensionCount
                (segment_at view j) HD) as Hj2.
  pose proof (segment_classes_duplicate minus equals point_dimension DimensionCount
                (segment_at view b)) as Hb1.
  pose proof (segment_classes_sentinel minus equals point_dimension DimensionCount
                (segment_at view b) HD) as Hb2.
  rewrite E in Hj1, Hj2. rewrite Hfirst in Hb1, Hb2. simpl in *.
  destruct dup, (duplicate s); try done.
  - symmetry. apply Hb2. by apply Hj1.
  - apply Hj2. by apply Hb1.
Qed.

Lemma sgn_add_same (a b : Z) : Z.sgn a = Z.sgn b -> Z.sgn (a + b) = Z.sgn b.
Proof.
  pose proof (Z.sgn_spec a). pose proof (Z.sgn_spec b).
  pose proof (Z.sgn_spec (a + b)). lia.
Qed.

(** X6.  A section that is not a duplicate is monotonic in every tracked
    dimension in which the coordinate type computes the differences of
    the consecutive points of the section with their true sign (no
    overflow): between any two points of the section, the later minus the
    earlier coordinate has the sign stored in [directions] for that
    dimension (strictly increasing for 1, constant for 0, strictly
    decreasing for -1). *)
Theorem section_monotonic
    (minus : coordinate_type -> coordinate_type -> coordinate_type)
    (equals : coordinate_type -> coordinate_type -> bool)
    (point_dimension DimensionCount MaxCount : nat)
    (Closure : closure_selector) (range : list Point) (sections : Sections)
    (ring_index' multi_index' : Z) :
  let view := closeable_view Closure range in
  forall s,
    s ∈ produced_sections minus equals point_dimension DimensionCount MaxCount
          Closure range sections ring_index' multi_index' ->
    duplicate s = false ->
    forall d, d < DimensionCount ->
    (forall k : nat, (begin_index s <= Z.of_nat k < end_index s)%Z ->
       Z.sgn (minus (get d (point_at view (S k))) (get d (point_at view k)))
       = Z.sgn (get d (point_at view (S k)) - get d (point_at view k))) ->
    forall i j : nat,
      (begin_index s <= Z.of_nat i)%Z -> i < j -> (Z.of_nat j <= end_index s)%Z ->
      Z.sgn (get d (point_at view j) - get d (point_at view i))
      = nth d (directions s) 0%Z.
Proof.
  cbv zeta. intros s Hs Hdup d Hd Hsgn i j Hi Hij Hj.
  destruct (produced_covers _ _ _ _ _ _ _ _ _ _ s Hs) as (b & e & Hc).
  set (view := closeable_view Closure range) in *.
  rewrite (cov_begin Hc) in Hi. rewrite (cov_end Hc) in Hj.
  rewrite (cov_begin Hc), (cov_end Hc) in Hsgn.
  assert (Hstep : forall k, b <= k < e ->
            Z.sgn (get d (point_at view (S k)) - get d (point_at view k))
            = nth d (directions s) 0%Z).
  { intros k Hk.
    assert (HD : 0 < DimensionCount) by lia.
    pose proof (covers_segment_classes _ _ _ _ _ _ _ _ _ _ _ k HD Hc Hk) as E.
    pose proof (segment_classes_regular minus equals point_dimension
                  DimensionCount (segment_at view k)) as Hreg.
    rewrite E in Hreg. simpl in Hreg. rewrite (Hreg Hdup).
    rewrite nth_direction_vector by done. symmetry. apply Hsgn. lia. }
  assert (Hall : forall n, i + S n <= e ->
            Z.sgn (get d (point_at view (i + S n)) - get d (point_at view i))
            = nth d (directions s) 0%Z).
  { induction n as [| n IH]; intros Hn.
    - rewrite Nat.add_1_r. apply Hstep. lia.
    - rewrite <- (Hstep (i + S n)) by lia.
      replace (i + S (S n)) with (S (i + S n)) by lia.
      replace (get d (point_at view (S (i + S n))) - get d (point_at view i))%Z
        with ((get d (point_at view (i + S n)) - get d (point_at view i))
              + (get d (point_at view (S (i + S n)))
                 - get d (point_at view (i + S n))))%Z by lia.
      apply sgn_add_same. rewrite IH by lia. symmetry. apply Hstep. lia. }
  replace j with (i + S (j - i - 1)) by lia. apply Hall. lia.
Qed.

(** The first eleven segments of the straight line, exact coordinates: x
    grows from point 2 to point 9. *)
Lemma section_monotonic_witness :
  (forall k : nat, (0 <= Z.of_nat k < 11)%Z ->
     Z.sgn (get 0 (point_at (closeable_view closed straight_line) (S k))
            - get 0 (point_at (closeable_view closed straight_line) k))
     = Z.sgn (get 0 (point_at (closeable_view closed straight_line) (S k))
              - get 0 (point_at (closeable_view closed straight_line) k)))
  /\ Z.sgn (get 0 (point_at (closeable_view closed straight_line) 9)
            - get 0 (point_at (closeable_view closed straight_line) 2)) = 1%Z.
Proof.
  pose (s0 := {| id := -1; directions := [1; 0]%Z; ring_index := -1;
                 multi_index := -1;
                 bounding_box := corners_box [0; 0]%Z [11; 0]%Z;
                 begin_index := 0; end_index := 11; count := 11;
                 range_count := 13; duplicate := false;
                 non_duplicate_index := 0 |}).
  assert (Hsgn : forall k : nat, (0 <= Z.of_nat k < 11)%Z ->
     Z.sgn (get 0 (point_at (closeable_view closed straight_line) (S k))
            - get 0 (point_at (closeable_view closed straight_line) k))
     = Z.sgn (get 0 (point_at (closeable_view closed straight_line) (S k))
              - get 0 (point_at (closeable_view closed straight_line) k)))
    by reflexivity.
  split; [exact Hsgn |].
  change 1%Z with (nth 0 (directions s0) 0%Z).
  apply (section_monotonic Z.sub Z.eqb 2 2 10 closed straight_line [] (-1) (-1)
           s0).
  - apply list_elem_of_lookup. exists 0. vm_compute. reflexivity.
  - reflexivity.
  - lia.
  - exact Hsgn.
  - simpl. lia.
  - lia.
  - simpl. lia.
Defined.

(** With [int] coordinates and an overflowing difference a section need
    not be monotonic: of the points [INT_MIN], [INT_MAX], [INT_MAX - 1]
    the first segment rises and the second falls, but both are classified
    as falling and share one section. *)
Example int_section_not_monotonic :
  map (fun s => (directions s, begin_index s, end_index s))
    (sectionalize_range int_minus Z.eqb 1 1 10 closed
       [[INT_MIN]; [INT_MAX]; [INT_MAX - 1]%Z] [] (-1) (-1))
  = [([(-1)%Z], 0%Z, 2%Z)].
Proof. reflexivity. Qed.

(** X7.  With at least one tracked dimension, a section is homogeneous:
    every one of its segments has the duplicate flag of the section, so a
    duplicate section holds zero-length segments only and any other
    section holds none. *)
Theorem section_duplicate_flag_uniform
    (minus : coordinate_type -> coordinate_type -> coordinate_type)
    (equals : coordinate_type -> coordinate_type -> bool)
    (point_dimension DimensionCount MaxCount : nat)
    (Closure : closure_selector) (range : list Point) (sections : Sections)
    (ring_index' multi_index' : Z)
    (HD : 0 < DimensionCount) :
  forall s,
    s ∈ produced_sections minus equals point_dimension DimensionCount MaxCount
          Closure range sections ring_index' multi_index' ->
    forall j : nat, (begin_index s <= Z.of_nat j < end_index s)%Z ->
      duplicate_segment minus equals point_dimension DimensionCount
        (closeable_view Closure range) j = duplicate s.
Proof.
  intros s Hs j Hj.
  destruct (produced_covers _ _ _ _ _ _ _ _ _ _ s Hs) as (b & e & Hc).
  rewrite (cov_begin Hc), (cov_end Hc) in Hj. unfold duplicate_segment.
  by rewrite (covers_segment_classes _ _ _ _ _ _ _ _ _ _ _ j HD Hc ltac:(lia)).
Qed.

(** Thirteen coincident points: segment 5 is a duplicate, like the
    section that holds it. *)
Lemma section_duplicate_flag_uniform_witness :
  0 < 2
  /\ duplicate_segment Z.sub Z.eqb 2 2 (closeable_view closed coincident_run) 5 = true.
Proof.
  split; [lia |].
  pose (s0 := {| id := -1; directions := [-99; -99]%Z; ring_index := -1;
                 multi_index := -1;
                 bounding_box := corners_box [1; 1]%Z [1; 1]%Z;
                 begin_index := 0; end_index := 11; count := 11;
                 range_count := 13; duplicate := true;
                 non_duplicate_index := 0 |}).
  change true with (duplicate s0).
  apply (section_duplicate_flag_uniform Z.sub Z.eqb 2 2 10 closed coincident_run []
           (-1) (-1) ltac:(lia) s0).
  - apply list_elem_of_lookup. exists 0. vm_compute. reflexivity.
  - simpl. lia.
Defined.

Lemma tiles_total_count
    (minus : coordinate_type -> coordinate_type -> coordinate_type)
    (equals : coordinate_type -> coordinate_type -> bool)
    (point_dimension DimensionCount MaxCount : nat)
    (view : list Point) (ri mi : Z) (ss : list section) : forall a e,
  tiles minus equals point_dimension DimensionCount MaxCount view ri mi a ss e ->
  total_count ss = e - a.
Proof.
  induction ss as [| s ss IH]; intros a e Ht; simpl in Ht.
  - subst e. simpl. lia.
  - destruct Ht as (m & Hc & _ & Ht).
    pose proof (tiles_le _ _ _ _ _ _ _ _ _ _ _ Ht).
    pose proof (cov_nonempty Hc). pose proof (cov_count Hc).
    simpl. rewrite (IH m e Ht). lia.
Qed.

Lemma total_count_app (l k : Sections) :
  total_count (l ++ k) = total_count l + total_count k.
Proof. induction l as [| s l IH]; simpl; [done |]. rewrite IH. lia. Qed.

Lemma total_count_set_ids_loop (sections : Sections) : forall index,
  total_count (set_ids_loop index sections) = total_count sections.
Proof.
  induction sections as [| s sections IH]; intros index; simpl; [done |].
  by rewrite IH.
Qed.

(** X8.  The counts of the sections of a range add up to the number of
    segments of its closing view, and the counts of the sections
    [sectionalize] returns add up to the number of segments of the
    geometry: every segment is counted in exactly one section, also across
    the rings of a polygon. *)
Theorem section_counts_add_up
    (minus : coordinate_type -> coordinate_type -> coordinate_type)
    (equals : coordinate_type -> coordinate_type -> bool)
    (point_dimension DimensionCount : nat) :
  (forall MaxCount Closure range sections ri mi,
      total_count
        (produced_sections minus equals point_dimension DimensionCount MaxCount
           Closure range sections ri mi)
      = length (closeable_view Closure range) - 1)
  /\ (forall geometry sections,
        total_count
          (sectionalize minus equals point_dimension DimensionCount geometry sections)
        = geometry_segments geometry).
Proof.
  assert (Hrange : forall MaxCount Closure range sections ri mi,
    total_count
      (produced_sections minus equals point_dimension DimensionCount MaxCount
         Closure range sections ri mi)
    = length (closeable_view Closure range) - 1).
  { intros MaxCount Closure range sections ri mi.
    rewrite (tiles_total_count _ _ _ _ _ _ _ _ _ _ _
               (produced_tiles minus equals point_dimension DimensionCount MaxCount
                  Closure range sections ri mi)). lia. }
  split; [exact Hrange |].
  intros geometry sections.
  unfold sectionalize, set_section_unique_ids.
  rewrite total_count_set_ids_loop, dispatch_sectionalize_rings. simpl.
  unfold geometry_segments.
  induction (rings_of geometry) as [| r rings IH]; simpl; [done |].
  rewrite total_count_app, IH. f_equal.
  rewrite <- (produced_sections_fresh minus equals point_dimension DimensionCount
                max_segments_per_section r.1.1 r.1.2 []).
  apply Hrange.
Qed.

(** X9.  Every section of a range carries the [ring_index] and
    [multi_index] handed to the range sectionizer, and as [range_count]
    the number of points of the closing view, which is at least two. *)
Theorem section_range_bookkeeping
    (minus : coordinate_type -> coordinate_type -> coordinate_type)
    (equals : coordinate_type -> coordinate_type -> bool)
    (point_dimension DimensionCount MaxCount : nat)
    (Closure : closure_selector) (range : list Point) (sections : Sections)
    (ring_index' multi_index' : Z) (s : section) :
  s ∈ produced_sections minus equals point_dimension DimensionCount MaxCount
        Closure range sections ring_index' multi_index' ->
  ring_index s = ring_index' /\ multi_index s = multi_index'
  /\ range_count s = length (closeable_view Closure range)
  /\ 2 <= range_count s.
Proof.
  intros Hs.
  destruct (produced_covers _ _ _ _ _ _ _ _ _ _ s Hs) as (b & e & Hc).
  pose proof (cov_nonempty Hc). pose proof (cov_inside Hc).
  rewrite (cov_ring Hc), (cov_multi Hc), (cov_range Hc).
  repeat split; lia.
Qed.

(** An open ring of four points, interior ring 3 of member 7: its last
    section closes the ring. *)
Lemma section_range_bookkeeping_witness :
  let s := {| id := -1; directions := [0; -1]%Z; ring_index := 3;
              multi_index := 7;
              bounding_box := corners_box [0; 0]%Z [0; 5]%Z;
              begin_index := 3; end_index := 4; count := 1;
              range_count := 5; duplicate := false;
              non_duplicate_index := 2 |} in
  ring_index s = 3%Z /\ multi_index s = 7%Z
  /\ range_count s
     = length (closeable_view open [[0; 0]; [5; 5]; [5; 5]; [0; 5]]%Z)
  /\ 2 <= range_count s.
Proof.
  intros s.
  apply (section_range_bookkeeping Z.sub Z.eqb 2 2 10 open
           [[0; 0]; [5; 5]; [5; 5]; [0; 5]]%Z [] 3 7 s).
  apply list_elem_of_lookup. exists 3. vm_compute. reflexivity.
Defined.

Lemma non_duplicates_section
    (minus : coordinate_type -> coordinate_type -> coordinate_type)
    (equals : coordinate_type -> coordinate_type -> bool)
    (point_dimension DimensionCount MaxCount : nat)
    (view : list Point) (ri mi : Z) (s : section) (b e : nat) :
  0 < DimensionCount ->
  covers minus equals point_dimension DimensionCount MaxCount view ri mi s b e ->
  forall n, b + n <= e ->
    non_duplicates minus equals point_dimension DimensionCount view (b + n)
    = non_duplicates minus equals point_dimension DimensionCount view b
      + (if duplicate s then 0 else n).
Proof.
  intros HD Hc. induction n as [| n IH]; intros Hn.
  - rewrite Nat.add_0_r. destruct (duplicate s); lia.
  - replace (b + S n) with (S (b + n)) by lia.
    rewrite non_duplicates_S, IH by lia.
    rewrite (covers_segment_classes _ _ _ _ _ _ _ _ _ _ _ (b + n) HD Hc) by lia.
    simpl. destruct (duplicate s); lia.
Qed.

(** X10.  [non_duplicate_index] is the number of non-duplicate segments of
    the range in front of the section.  With at least one tracked
    dimension it is 0 for the first section, and from one section to the
    next it grows by the count of the section unless that section is a
    duplicate. *)
Theorem non_duplicate_index_counts
    (minus : coordinate_type -> coordinate_type -> coordinate_type)
    (equals : coordinate_type -> coordinate_type -> bool)
    (point_dimension DimensionCount MaxCount : nat)
    (Closure : closure_selector) (range : list Point) (sections : Sections)
    (ring_index' multi_index' : Z)
    (HD : 0 < DimensionCount) :
  let out := produced_sections minus equals point_dimension DimensionCount MaxCount
               Closure range sections ring_index' multi_index' in
  (forall s, s ∈ out ->
     non_duplicate_index s
     = Z.of_nat (non_duplicates minus equals point_dimension DimensionCount
                   (closeable_view Closure range) (Z.to_nat (begin_index s))))
  /\ (forall s, out !! 0 = Some s -> non_duplicate_index s = 0%Z)
  /\ (forall i s t, out !! i = Some s -> out !! S i = Some t ->
        non_duplicate_index t
        = (non_duplicate_index s
           + (if duplicate s then 0 else Z.of_nat (count s)))%Z).
Proof.
  intros out. split.
  { intros s Hs.
    destruct (produced_covers _ _ _ _ _ _ _ _ _ _ s Hs) as (b & e & Hc).
    by rewrite (cov_ndi Hc), (cov_begin Hc), Nat2Z.id. }
  split.
  { intros s Hs.
    pose proof (produced_tiles minus equals point_dimension DimensionCount MaxCount
                  Closure range sections ring_index' multi_index') as Ht.
    fold out in Ht. destruct out as [| s0 rest]; [done |].
    injection Hs as ->. simpl in Ht. destruct Ht as (m & Hc & _).
    by rewrite (cov_ndi Hc). }
  intros i s t Hi Hj.
  destruct (produced_next _ _ _ _ _ _ _ _ _ _ i s t Hi Hj)
    as (b & m & e & Hc & Hc' & _).
  rewrite (cov_ndi Hc), (cov_ndi Hc').
  pose proof (cov_nonempty Hc). pose proof (cov_count Hc) as Hcnt.
  pose proof (non_duplicates_section _ _ _ _ _ _ _ _ _ _ _ HD Hc (m - b)
                ltac:(lia)) as Hnd.
  replace (b + (m - b)) with m in Hnd by lia.
  rewrite Hnd, Hcnt. destruct (duplicate s); lia.
Qed.

(** An open ring with one zero-length edge: the duplicate section does not
    advance the index, the section before it does. *)
Lemma non_duplicate_index_counts_witness :
  let s1 := {| id := -1; directions := [-99; -99]%Z; ring_index := -1;
               multi_index := -1;
               bounding_box := corners_box [5; 5]%Z [5; 5]%Z;
               begin_index := 1; end_index := 2; count := 1;
               range_count := 5; duplicate := true;
               non_duplicate_index := 1 |} in
  let s2 := {| id := -1; directions := [-1; 0]%Z; ring_index := -1;
               multi_index := -1;
               bounding_box := corners_box [0; 5]%Z [5; 5]%Z;
               begin_index := 2; end_index := 3; count := 1;
               range_count := 5; duplicate := false;
               non_duplicate_index := 1 |} in
  0 < 2
  /\ non_duplicate_index s2
     = (non_duplicate_index s1
        + (if duplicate s1 then 0 else Z.of_nat (count s1)))%Z.
Proof.
  intros s1 s2. assert (HD : 0 < 2) by lia. split; [exact HD |].
  apply (proj2 (proj2 (non_duplicate_index_counts Z.sub Z.eqb 2 2 10 open
                         [[0; 0]; [5; 5]; [5; 5]; [0; 5]]%Z [] (-1) (-1) HD))
           1 s1 s2).
  - vm_compute. reflexivity.
  - vm_compute. reflexivity.
Defined.

Lemma tiles_uniform
    (minus : coordinate_type -> coordinate_type -> coordinate_type)
    (equals : coordinate_type -> coordinate_type -> bool)
    (point_dimension DimensionCount MaxCount : nat)
    (view : list Point) (ri mi : Z) (c : list Z) (e : nat)
    (ss : list section) : forall a,
  (forall j, a <= j < e ->
     snd (segment_classes minus equals point_dimension DimensionCount
            (segment_at view j)) = c) ->
  tiles minus equals point_dimension DimensionCount MaxCount view ri mi a ss e ->
  forall i s, ss !! i = Some s ->
    covers minus equals point_dimension DimensionCount MaxCount view ri mi s
      (a + i * S MaxCount) (Nat.min (a + S i * S MaxCount) e).
Proof.
  induction ss as [| t ss IH]; intros a Hsame Ht i s Hi; [done |].
  simpl in Ht. destruct Ht as (m & Hc & Hr & Ht).
  pose proof (tiles_le _ _ _ _ _ _ _ _ _ _ _ Ht) as Hle.
  pose proof (cov_nonempty Hc) as Hne. pose proof (cov_count Hc) as Hcnt.
  pose proof (cov_max Hc) as Hmax.
  assert (Hm : m = Nat.min (a + S MaxCount) e).
  { destruct (decide (m < e)) as [Hlt | Hge]; [| lia].
    destruct (Hr Hlt) as [Hdiff | Hfull]; [| lia].
    exfalso. apply Hdiff.
    rewrite <- (cov_classes Hc a) by lia.
    rewrite (Hsame m), (Hsame a) by lia. done. }
  destruct i as [| i]; simpl in Hi.
  - injection Hi as <-.
    replace (a + 0 * S MaxCount) with a by lia.
    replace (a + 1 * S MaxCount) with (a + S MaxCount) by lia.
    by rewrite <- Hm.
  - assert (Hsame' : forall j, m <= j < e ->
              snd (segment_classes minus equals point_dimension DimensionCount
                     (segment_at view j)) = c).
    { intros j Hj. apply Hsame. lia. }
    pose proof (IH m Hsame' Ht i s Hi) as Hc'.
    pose proof (cov_nonempty Hc') as Hne'.
    pose proof (Nat.mul_succ_l i (S MaxCount)) as E1.
    pose proof (Nat.mul_succ_l (S i) (S MaxCount)) as E2.
    assert (Hfull : m = a + S MaxCount) by lia.
    replace (a + S i * S MaxCount) with (m + i * S MaxCount) by lia.
    replace (a + S (S i) * S MaxCount) with (m + S i * S MaxCount) by lia.
    done.
Qed.

(** X11.  When all segments of a range have the same classes (one
    direction, or all of them zero-length), the run is cut every
    [MaxCount + 1] segments: section number [i] begins at segment
    [i * (MaxCount + 1)] and ends [MaxCount + 1] segments later, or at the
    end of the range if that comes first. *)
Theorem uniform_run_sections
    (minus : coordinate_type -> coordinate_type -> coordinate_type)
    (equals : coordinate_type -> coordinate_type -> bool)
    (point_dimension DimensionCount MaxCount : nat)
    (Closure : closure_selector) (range : list Point) (sections : Sections)
    (ring_index' multi_index' : Z) :
  let view := closeable_view Closure range in
  (forall j, S j < length view ->
     snd (segment_classes minus equals point_dimension DimensionCount (segment_at view j))
     = snd (segment_classes minus equals point_dimension DimensionCount
              (segment_at view 0))) ->
  forall i s,
    produced_sections minus equals point_dimension DimensionCount MaxCount
      Closure range sections ring_index' multi_index' !! i = Some s ->
    begin_index s = Z.of_nat (i * (MaxCount + 1))
    /\ end_index s
       = Z.of_nat (Nat.min ((i + 1) * (MaxCount + 1)) (length view - 1))
    /\ count s
       = Nat.min ((i + 1) * (MaxCount + 1)) (length view - 1)
         - i * (MaxCount + 1).
Proof.
  cbv zeta. intros Hsame i s Hi.
  pose proof (tiles_uniform minus equals point_dimension DimensionCount MaxCount
                (closeable_view Closure range) ring_index' multi_index' _
                (length (closeable_view Closure range) - 1) _ 0
                ltac:(intros j Hj; apply Hsame; lia)
                (produced_tiles minus equals point_dimension DimensionCount MaxCount
                   Closure range sections ring_index' multi_index') i s Hi)
    as Hc.
  simpl in Hc.
  rewrite (cov_begin Hc), (cov_end Hc), (cov_count Hc).
  replace (MaxCount + 1) with (S MaxCount) by lia.
  replace (i + 1) with (S i) by lia. done.
Qed.

(** Twelve segments in one direction, at most ten per section: the second
    section holds segment 11 only. *)
Lemma uniform_run_sections_witness :
  let s := {| id := -1; directions := [1; 0]%Z; ring_index := -1;
              multi_index := -1;
              bounding_box := corners_box [11; 0]%Z [12; 0]%Z;
              begin_index := 11; end_index := 12; count := 1;
              range_count := 13; duplicate := false;
              non_duplicate_index := 11 |} in
  begin_index s = Z.of_nat (1 * (10 + 1))
  /\ end_index s
     = Z.of_nat (Nat.min ((1 + 1) * (10 + 1))
                   (length (closeable_view closed straight_line) - 1))
  /\ count s
     = Nat.min ((1 + 1) * (10 + 1))
         (length (closeable_view closed straight_line) - 1)
       - 1 * (10 + 1).
Proof.
  intros s.
  apply (uniform_run_sections Z.sub Z.eqb 2 2 10 closed straight_line [] (-1) (-1)).
  - intros j Hj. simpl in Hj.
    do 12 (destruct j as [| j]; [reflexivity |]). lia.
  - vm_compute. reflexivity.
Defined.

(** ** Polygons and the id assigner *)

Lemma range_sections_ring_index
    (minus : coordinate_type -> coordinate_type -> coordinate_type)
    (equals : coordinate_type -> coordinate_type -> bool)
    (point_dimension DimensionCount MaxCount : nat)
    Closure range ri mi s :
  s ∈ sectionalize_range minus equals point_dimension DimensionCount MaxCount
        Closure range [] ri mi ->
  ring_index s = ri /\ multi_index s = mi.
Proof.
  intros Hs.
  destruct (tiles_elem _ _ _ _ _ _ _ _ _ _ _ _
              (sectionalize_range_tiles minus equals point_dimension DimensionCount
                 MaxCount Closure range ri mi) Hs) as (b & e & Hc & _).
  by rewrite (cov_ring Hc), (cov_multi Hc).
Qed.

(** X12.  [sectionalize_polygon] leaves the sections already in the
    collection in place and appends the sections of the exterior ring,
    made with [ring_index = -1], then those of the interior rings in
    order, the ring at position [k] with [ring_index = k]; all of them
    carry the [multi_index] given.  So the [ring_index] of an appended
    section is -1 or the position of an interior ring. *)
Theorem polygon_sections_by_ring
    (minus : coordinate_type -> coordinate_type -> coordinate_type)
    (equals : coordinate_type -> coordinate_type -> bool)
    (point_dimension DimensionCount MaxCount : nat)
    (poly : Polygon) (sections : Sections) (multi_index' : Z) :
  let ring_sections := fun (ring : list Point) (ri : Z) =>
    sectionalize_range minus equals point_dimension DimensionCount MaxCount
      (closure poly) ring [] ri multi_index' in
  sectionalize_polygon minus equals point_dimension DimensionCount MaxCount
    poly sections multi_index'
  = sections
    ++ ring_sections (exterior_ring poly) (-1)%Z
    ++ concat (imap (fun k ring => ring_sections ring (Z.of_nat k))
                 (interior_rings poly))
  /\ forall s,
       s ∈ drop (length sections)
             (sectionalize_polygon minus equals point_dimension DimensionCount
                MaxCount poly sections multi_index') ->
       multi_index s = multi_index'
       /\ (-1 <= ring_index s < Z.of_nat (length (interior_rings poly)))%Z.
Proof.
  intros ring_sections.
  assert (Hloop : forall rings i ss,
    interior_loop minus equals point_dimension DimensionCount MaxCount
      (closure poly) (Z.of_nat i) rings ss multi_index'
    = ss ++ concat (imap (fun k ring => ring_sections ring (Z.of_nat (i + k)))
                      rings)).
  { induction rings as [| ring rings IH]; intros i ss; simpl.
    - by rewrite app_nil_r.
    - replace (Z.of_nat i + 1)%Z with (Z.of_nat (S i)) by lia.
      rewrite IH, sectionalize_range_app, <- app_assoc, Nat.add_0_r.
      f_equal. unfold ring_sections at 2. f_equal. f_equal.
      apply imap_ext. intros k ring' _. simpl.
      by replace (S (i + k)) with (i + S k) by lia. }
  assert (Heq : sectionalize_polygon minus equals point_dimension DimensionCount
                  MaxCount poly sections multi_index'
                = sections
                  ++ ring_sections (exterior_ring poly) (-1)%Z
                  ++ concat (imap (fun k ring => ring_sections ring (Z.of_nat k))
                               (interior_rings poly))).
  { unfold sectionalize_polygon.
    rewrite (Hloop _ 0), sectionalize_range_app, <- app_assoc. done. }
  split; [exact Heq |].
  intros s Hs. rewrite Heq, drop_app_length in Hs.
  apply elem_of_app in Hs as [Hs | Hs].
  - apply range_sections_ring_index in Hs as [-> ->]. lia.
  - apply list_elem_of_In, in_concat in Hs as (l & Hl & Hs).
    apply list_elem_of_In, elem_of_lookup_imap_1 in Hl as (k & ring & -> & Hring).
    apply lookup_lt_Some in Hring.
    apply list_elem_of_In, range_sections_ring_index in Hs as [-> ->]. lia.
Qed.

Lemma set_ids_loop_again (sections : Sections) : forall i j,
  set_ids_loop i (set_ids_loop j sections) = set_ids_loop i sections.
Proof.
  induction sections as [| s sections IH]; intros i j; simpl; [done |].
  by rewrite IH.
Qed.

Lemma set_ids_loop_fields (sections : Sections) : forall i,
  map (set_id 0) (set_ids_loop i sections) = map (set_id 0) sections.
Proof.
  induction sections as [| s sections IH]; intros i; simpl; [done |].
  by rewrite IH.
Qed.

(** X13.  [set_section_unique_ids] keeps the number and the order of the
    sections and every field but [id]; the ids it assigns are pairwise
    distinct; and running it again changes nothing. *)
Theorem set_section_unique_ids_unique (sections : Sections) :
  length (set_section_unique_ids sections) = length sections
  /\ map (set_id 0) (set_section_unique_ids sections) = map (set_id 0) sections
  /\ NoDup (map id (set_section_unique_ids sections))
  /\ set_section_unique_ids (set_section_unique_ids sections)
     = set_section_unique_ids sections.
Proof.
  unfold set_section_unique_ids.
  split; [apply length_set_ids_loop |].
  split; [apply set_ids_loop_fields |].
  split; [| apply set_ids_loop_again].
  rewrite set_ids_loop_ids.
  change (NoDup ((fun n => (0 + Z.of_nat n)%Z) <$> seq 0 (length sections))).
  apply NoDup_fmap_2; [intros m n H; lia | apply NoDup_seq].
Qed.

(** ** Sectionalizing a part of a range *)

Section PartOfRange.

Variable minus : coordinate_type -> coordinate_type -> coordinate_type.
Variable equals : coordinate_type -> coordinate_type -> bool.
Variable point_dimension : nat.
Variable DimensionCount : nat.
Variable MaxCount : nat.
Variables ring_index' multi_index' : Z.

Abbreviation step :=
  (part_step minus equals point_dimension DimensionCount MaxCount).
Abbreviation loop :=
  (part_loop minus equals point_dimension DimensionCount MaxCount).
Abbreviation part :=
  (sectionalize_part minus equals point_dimension DimensionCount MaxCount).

Lemma part_step_index n previous it st :
  st_index (step n ring_index' multi_index' previous it st)
  = (st_index st + 1)%Z.
Proof.
  unfold part_step. destruct (segment_classes _ _ _ _ _) as [dup cls].
  by destruct (flush_condition _ _ _ _).
Qed.

Lemma part_loop_index n rest : forall previous st,
  st_index (loop n ring_index' multi_index' previous rest st)
  = (st_index st + Z.of_nat (length rest))%Z.
Proof.
  induction rest as [| it rest IH]; intros previous st; simpl; [lia |].
  rewrite IH, part_step_index. lia.
Qed.

Lemma part_loop_app n rest1 rest2 : forall previous st,
  loop n ring_index' multi_index' previous (rest1 ++ rest2) st
  = loop n ring_index' multi_index' (default previous (last rest1)) rest2
      (loop n ring_index' multi_index' previous rest1 st).
Proof.
  induction rest1 as [| it rest1 IH]; intros previous st; [done |].
  cbn [app part_loop]. rewrite IH, last_cons. by destruct (last rest1).
Qed.

Lemma drop_length_last (rest : list Point) : forall previous,
  drop (length rest) (previous :: rest) = [default previous (last rest)].
Proof.
  induction rest as [| it rest IH]; intros previous; [done |].
  cbn [length drop]. rewrite IH, last_cons. by destruct (last rest).
Qed.

(** The run of [sectionalize_part] from a position inside the range. *)
Lemma sectionalize_part_run st range :
  (0 <= st_index st < Z.of_nat (length range))%Z ->
  exists previous rest,
    drop (Z.to_nat (st_index st)) range = previous :: rest
    /\ part st range ring_index' multi_index'
       = loop (length range) ring_index' multi_index' previous rest
           {| st_sections := st_sections st;
              st_section := st_section st;
              st_index := st_index st;
              st_ndi := if (st_index st =? 0)%Z then 0%Z else st_ndi st |}.
Proof.
  intros Hk. unfold sectionalize_part.
  destruct (Z.leb_spec (Z.of_nat (length range)) (st_index st)); [lia |].
  destruct (drop (Z.to_nat (st_index st)) range) as [| previous rest] eqn:E.
  - apply (f_equal length) in E. rewrite length_drop in E. simpl in E. lia.
  - by exists previous, rest.
Qed.

(** The run of [sectionalize_part] from the last point of a range that
    has been given more points. *)
Lemma sectionalize_part_continue st range extra last_point :
  (st_index st = Z.of_nat (length range) - 1)%Z ->
  drop (length range - 1) range = [last_point] ->
  (length range = 1 -> st_ndi st = 0%Z) ->
  part st (range ++ extra) ring_index' multi_index'
  = loop (length (range ++ extra)) ring_index' multi_index' last_point extra st.
Proof.
  intros Hidx Hlast Hndi.
  assert (Hlen : 1 <= length range).
  { apply (f_equal length) in Hlast. rewrite length_drop in Hlast.
    simpl in Hlast. lia. }
  unfold sectionalize_part.
  destruct (Z.leb_spec (Z.of_nat (length (range ++ extra))) (st_index st)) as [Hle | _].
  { rewrite length_app in Hle. lia. }
  replace (Z.to_nat (st_index st)) with (length range - 1) by lia.
  rewrite drop_app_le by lia. rewrite Hlast. simpl.
  f_equal. destruct st as [ss sec idx ndi]. simpl in *. f_equal.
  destruct (Z.eqb_spec idx 0); [| done]. symmetry. apply Hndi. lia.
Qed.

(** Leaving [range_count] out, the size handed to the loop and the
    [range_count]s already stored do not matter. *)
Lemma part_step_forget n previous it st :
  forget_range_counts (step n ring_index' multi_index' previous it st)
  = forget_range_counts
      (step 0 ring_index' multi_index' previous it (forget_range_counts st)).
Proof.
  assert (Hm : map forget_range_count (map forget_range_count (st_sections st))
               = map forget_range_count (st_sections st)).
  { rewrite map_map. by apply map_ext. }
  unfold part_step, forget_range_counts, flush_condition.
  cbn [st_sections st_section st_index st_ndi forget_range_count count directions].
  destruct (segment_classes _ _ _ _ _) as [dup cls].
  destruct (_ && _); cbn [st_sections st_section st_index st_ndi];
    rewrite ?map_app, Hm; cbn [map]; [done |].
  cbn [forget_range_count count]. by destruct (count (st_section st) =? 0).
Qed.

Lemma part_loop_forget n n' rest : forall previous st st',
  forget_range_counts st = forget_range_counts st' ->
  forget_range_counts (loop n ring_index' multi_index' previous rest st)
  = forget_range_counts (loop n' ring_index' multi_index' previous rest st').
Proof.
  induction rest as [| it rest IH]; intros previous st st' H; simpl; [done |].
  apply IH. rewrite (part_step_forget n), (part_step_forget n'). by rewrite H.
Qed.

(** Where a run from inside the range ends. *)
Lemma sectionalize_part_end st range :
  (0 <= st_index st < Z.of_nat (length range))%Z ->
  exists previous rest,
    drop (Z.to_nat (st_index st)) range = previous :: rest
    /\ part st range ring_index' multi_index'
       = loop (length range) ring_index' multi_index' previous rest
           {| st_sections := st_sections st;
              st_section := st_section st;
              st_index := st_index st;
              st_ndi := if (st_index st =? 0)%Z then 0%Z else st_ndi st |}
    /\ st_index (part st range ring_index' multi_index')
       = (Z.of_nat (length range) - 1)%Z
    /\ drop (length range - 1) range = [default previous (last rest)]
    /\ (length range = 1 ->
        st_ndi (part st range ring_index' multi_index') = 0%Z).
Proof.
  intros Hk.
  destruct (sectionalize_part_run st range Hk) as (previous & rest & Hdrop & Hrun).
  exists previous, rest.
  assert (Hlen : length range = Z.to_nat (st_index st) + S (length rest)).
  { apply (f_equal length) in Hdrop. rewrite length_drop in Hdrop.
    simpl in Hdrop. lia. }
  split; [done |]. split; [done |]. split; [| split].
  - rewrite Hrun, part_loop_index. simpl. lia.
  - replace (length range - 1) with (Z.to_nat (st_index st) + length rest) by lia.
    rewrite <- drop_drop, Hdrop. apply drop_length_last.
  - intros H1. rewrite Hrun.
    assert (rest = []) as -> by (destruct rest; [done | simpl in Hlen; lia]).
    simpl. destruct (Z.eqb_spec (st_index st) 0); [done | lia].
Qed.

(** *** Resuming a run with a longer range *)

Lemma retag_count lo hi n s : count (retag lo hi n s) = count s.
Proof. unfold retag. by destruct (_ && _). Qed.

Lemma retag_directions lo hi n s :
  directions (retag lo hi n s) = directions s.
Proof. unfold retag. by destruct (_ && _). Qed.

Lemma retag_add_segment lo hi n index it s :
  retag lo hi n (add_segment point_dimension index it s)
  = add_segment point_dimension index it (retag lo hi n s).
Proof. unfold retag. cbn [add_segment begin_index]. by destruct (_ && _). Qed.

Lemma begin_section_retag lo hi n size index ndi dup cls previous s :
  begin_section point_dimension DimensionCount size ring_index' multi_index'
    index ndi dup cls previous (retag lo hi n s)
  = begin_section point_dimension DimensionCount size ring_index' multi_index'
      index ndi dup cls previous s.
Proof. unfold retag. by destruct (_ && _). Qed.

(** A section begun at [index]: within [[lo, hi)] it is retagged to the
    size it would have been given there, elsewhere it is left alone. *)
Lemma retag_begin_section lo hi n nA nB index ndi dup cls previous s :
  ((lo <= index < hi)%Z /\ nA = n) \/ (~ (lo <= index < hi)%Z /\ nA = nB) ->
  retag lo hi n
    (begin_section point_dimension DimensionCount nB ring_index' multi_index'
       index ndi dup cls previous s)
  = begin_section point_dimension DimensionCount nA ring_index' multi_index'
      index ndi dup cls previous s.
Proof.
  unfold retag. cbn [begin_section begin_index].
  intros [[Hin ->] | [Hout ->]].
  - destruct (Z.leb_spec lo index); [| lia].
    by destruct (Z.ltb_spec index hi); [| lia].
  - destruct (Z.leb_spec lo index); [| done].
    by destruct (Z.ltb_spec index hi); [lia |].
Qed.

Lemma part_step_retag m lo hi n nA nB previous it st :
  m <= length (st_sections st) ->
  ((lo <= st_index st < hi)%Z /\ nA = n)
  \/ (~ (lo <= st_index st < hi)%Z /\ nA = nB) ->
  step nA ring_index' multi_index' previous it (retag_state m lo hi n st)
  = retag_state m lo hi n (step nB ring_index' multi_index' previous it st)
  /\ m <= length (st_sections
                    (step nB ring_index' multi_index' previous it st)).
Proof.
  intros Hm Hcase. unfold part_step, retag_state, flush_condition.
  cbn [st_sections st_section st_index st_ndi].
  rewrite retag_count, retag_directions.
  destruct (segment_classes _ _ _ _ _) as [dup cls].
  destruct (_ && _); cbn [st_sections st_section st_index st_ndi count section_type
                          Nat.eqb].
  - rewrite length_app. split; [| lia].
    rewrite take_app_le, drop_app_le, map_app, retag_add_segment by done.
    rewrite (retag_begin_section lo hi n nA nB) by done.
    cbn [map]. by rewrite <- app_assoc.
  - split; [| done]. rewrite retag_count, retag_add_segment.
    destruct (count (st_section st) =? 0); [| done].
    by rewrite begin_section_retag, (retag_begin_section lo hi n nA nB).
Qed.

Lemma part_loop_retag_inside m lo hi n nB rest : forall previous st,
  m <= length (st_sections st) ->
  (lo <= st_index st)%Z ->
  (st_index st + Z.of_nat (length rest) <= hi)%Z ->
  loop n ring_index' multi_index' previous rest (retag_state m lo hi n st)
  = retag_state m lo hi n (loop nB ring_index' multi_index' previous rest st)
  /\ m <= length (st_sections
                    (loop nB ring_index' multi_index' previous rest st)).
Proof.
  induction rest as [| it rest IH]; intros previous st Hm Hlo Hhi; [done |].
  cbn [part_loop length] in *.
  destruct (part_step_retag m lo hi n n nB previous it st Hm) as [-> Hm'];
    [left; split; [lia | done] |].
  apply IH; [done | |]; rewrite part_step_index; lia.
Qed.

Lemma part_loop_retag_outside m lo hi n nB rest : forall previous st,
  m <= length (st_sections st) ->
  (hi <= st_index st)%Z ->
  loop nB ring_index' multi_index' previous rest (retag_state m lo hi n st)
  = retag_state m lo hi n (loop nB ring_index' multi_index' previous rest st).
Proof.
  induction rest as [| it rest IH]; intros previous st Hm Hhi; [done |].
  cbn [part_loop].
  destruct (part_step_retag m lo hi n nB nB previous it st Hm) as [-> Hm'];
    [right; split; [lia | done] |].
  apply IH; [done |]. rewrite part_step_index. lia.
Qed.

(** A state all of whose sections are among the first [m], and whose
    section in progress was begun before [lo], is left alone. *)
Lemma retag_state_initial lo hi n st :
  (begin_index (st_section st) < lo)%Z ->
  retag_state (length (st_sections st)) lo hi n st = st.
Proof.
  intros Hb. destruct st as [ss sec idx ndi]. unfold retag_state, retag.
  cbn [st_sections st_section st_index st_ndi] in *.
  rewrite take_ge, drop_ge by done. cbn [map]. rewrite app_nil_r.
  by destruct (Z.leb_spec lo (begin_index sec)); [lia |].
Qed.

End PartOfRange.

(** X14.  [sectionalize_part] leaves the state alone when [index] is not
    below the size of the range; otherwise it stops with [index] at the
    last point of the range.  Either way, calling it again on the same
    range changes nothing: no segment is sectionalized twice. *)
Theorem sectionalize_part_completes
    (minus : coordinate_type -> coordinate_type -> coordinate_type)
    (equals : coordinate_type -> coordinate_type -> bool)
    (point_dimension DimensionCount MaxCount : nat)
    (st : part_state) (range : list Point) (ring_index' multi_index' : Z)
    (Hidx : (0 <= st_index st)%Z) :
  let st' := sectionalize_part minus equals point_dimension DimensionCount MaxCount
               st range ring_index' multi_index' in
  ((Z.of_nat (length range) <= st_index st)%Z -> st' = st)
  /\ ((st_index st < Z.of_nat (length range))%Z ->
      st_index st' = (Z.of_nat (length range) - 1)%Z)
  /\ sectionalize_part minus equals point_dimension DimensionCount MaxCount
       st' range ring_index' multi_index' = st'.
Proof.
  intros st'.
  assert (Hout : (Z.of_nat (length range) <= st_index st)%Z -> st' = st).
  { intros Hge. unfold st', sectionalize_part.
    by destruct (Z.leb_spec (Z.of_nat (length range)) (st_index st)); [| lia]. }
  split; [exact Hout |].
  destruct (Z.le_gt_cases (Z.of_nat (length range)) (st_index st)) as [Hge | Hlt].
  { split; [lia |]. rewrite (Hout Hge). fold st'. by apply Hout. }
  destruct (sectionalize_part_end minus equals point_dimension DimensionCount MaxCount
              ring_index' multi_index' st range ltac:(lia))
    as (previous & rest & _ & _ & Hend & Hlast & Hndi).
  fold st' in Hend, Hndi.
  split; [done |].
  rewrite <- (app_nil_r range) at 1.
  by rewrite (sectionalize_part_continue _ _ _ _ _ _ _ st' range [] _ Hend Hlast Hndi).
Qed.

(** The square ring, sectionalized from a new state, then once more. *)
Lemma sectionalize_part_completes_witness :
  let st0 := {| st_sections := []; st_section := section_type 2;
                st_index := 0; st_ndi := 0 |} in
  (0 <= st_index st0)%Z
  /\ sectionalize_part Z.sub Z.eqb 2 2 10
       (sectionalize_part Z.sub Z.eqb 2 2 10 st0 square (-1) (-1)) square (-1) (-1)
     = sectionalize_part Z.sub Z.eqb 2 2 10 st0 square (-1) (-1).
Proof.
  intros st0. assert (Hidx : (0 <= st_index st0)%Z) by (simpl; lia).
  split; [exact Hidx |].
  exact (proj2 (proj2 (sectionalize_part_completes Z.sub Z.eqb 2 2 10 st0 square
                         (-1) (-1) Hidx))).
Defined.

(** X15.  [sectionalize_part] can be resumed.  Let it run on a range from
    a state whose section in progress was begun before [index], and then
    on the same range with more points appended.  The state reached is
    the one a single run on the longer range reaches, except that the
    sections begun during the first run, those beginning at a segment
    index from [index] up to the last segment of the shorter range, carry
    as [range_count] the size the range had then.  Every other section,
    those the collection held before and those begun during the second
    run included, is the same in both states with all its fields, and so
    are [index] and [ndi]; in particular the two states agree once
    [range_count] is left out. *)
Theorem sectionalize_part_resumes
    (minus : coordinate_type -> coordinate_type -> coordinate_type)
    (equals : coordinate_type -> coordinate_type -> bool)
    (point_dimension DimensionCount MaxCount : nat)
    (st : part_state) (range extra : list Point)
    (ring_index' multi_index' : Z)
    (Hidx : (0 <= st_index st < Z.of_nat (length range))%Z)
    (Hbegun : (begin_index (st_section st) < st_index st)%Z) :
  let resumed :=
    sectionalize_part minus equals point_dimension DimensionCount MaxCount
      (sectionalize_part minus equals point_dimension DimensionCount MaxCount
         st range ring_index' multi_index')
      (range ++ extra) ring_index' multi_index' in
  let single :=
    sectionalize_part minus equals point_dimension DimensionCount MaxCount
      st (range ++ extra) ring_index' multi_index' in
  resumed
  = retag_state (length (st_sections st))
      (st_index st) (Z.of_nat (length range) - 1) (length range) single
  /\ forget_range_counts resumed = forget_range_counts single.
Proof.
  cbv zeta.
  destruct (sectionalize_part_end minus equals point_dimension DimensionCount
              MaxCount ring_index' multi_index' st range Hidx)
    as (previous & rest & Hdrop & Hrun & Hend & Hlast & Hndi).
  rewrite (sectionalize_part_continue _ _ _ _ _ _ _ _ range extra _
             Hend Hlast Hndi).
  assert (Hidx' : (0 <= st_index st < Z.of_nat (length (range ++ extra)))%Z).
  { rewrite length_app. lia. }
  destruct (sectionalize_part_run minus equals point_dimension DimensionCount
              MaxCount ring_index' multi_index' st (range ++ extra) Hidx')
    as (previous' & rest' & Hdrop' & Hrun').
  rewrite drop_app_le, Hdrop in Hdrop' by lia.
  injection Hdrop' as <- <-.
  rewrite Hrun', part_loop_app, Hrun.
  split; [| apply part_loop_forget; by apply part_loop_forget].
  assert (Hlen : length range = Z.to_nat (st_index st) + S (length rest)).
  { apply (f_equal length) in Hdrop. rewrite length_drop in Hdrop.
    simpl in Hdrop. lia. }
  set (st0 := {| st_sections := st_sections st;
                 st_section := st_section st;
                 st_index := st_index st;
                 st_ndi := if (st_index st =? 0)%Z then 0%Z else st_ndi st |}).
  set (m := length (st_sections st)).
  set (lo := st_index st). set (hi := (Z.of_nat (length range) - 1)%Z).
  set (n := length range). set (nB := length (range ++ extra)).
  assert (Hinit : retag_state m lo hi n st0 = st0)
    by (apply (retag_state_initial lo hi n st0); exact Hbegun).
  destruct (part_loop_retag_inside minus equals point_dimension DimensionCount
              MaxCount ring_index' multi_index' m lo hi n nB rest previous st0)
    as [Hfirst Hm]; [done | done | unfold hi; simpl; lia |].
  rewrite Hinit in Hfirst. rewrite Hfirst.
  apply part_loop_retag_outside; [exact Hm |].
  rewrite part_loop_index. unfold hi. simpl. lia.
Qed.

(** Two points first, then the same two points followed by two more. *)
Lemma sectionalize_part_resumes_witness :
  let st0 := {| st_sections := []; st_section := section_type 2;
                st_index := 0; st_ndi := 0 |} in
  let range := [[0; 0]; [1; 0]]%Z in
  let extra := [[2; 0]; [2; 5]]%Z in
  (0 <= st_index st0 < Z.of_nat (length range))%Z
  /\ (begin_index (st_section st0) < st_index st0)%Z
  /\ sectionalize_part Z.sub Z.eqb 2 2 10
       (sectionalize_part Z.sub Z.eqb 2 2 10 st0 range (-1) (-1))
       (range ++ extra) (-1) (-1)
     = retag_state 0 0 1 2
         (sectionalize_part Z.sub Z.eqb 2 2 10 st0 (range ++ extra) (-1) (-1)).
Proof.
  intros st0 range extra.
  assert (Hidx : (0 <= st_index st0 < Z.of_nat (length range))%Z) by (simpl; lia).
  assert (Hbegun : (begin_index (st_section st0) < st_index st0)%Z)
    by (simpl; lia).
  split; [exact Hidx |]. split; [exact Hbegun |].
  exact (proj1 (sectionalize_part_resumes Z.sub Z.eqb 2 2 10 st0 range extra
                  (-1) (-1) Hidx Hbegun)).
Defined.

(** In that run the section begun with two points keeps [range_count] 2
    when it is pushed, the section begun after the points were added has
    [range_count] 4; a single run gives 4 to both. *)
Example resumed_range_counts :
  let st0 := {| st_sections := []; st_section := section_type 2;
                st_index := 0; st_ndi := 0 |} in
  let range := [[0; 0]; [1; 0]]%Z in
  let extra := [[2; 0]; [2; 5]]%Z in
  let resumed :=
    sectionalize_part Z.sub Z.eqb 2 2 10
      (sectionalize_part Z.sub Z.eqb 2 2 10 st0 range (-1) (-1))
      (range ++ extra) (-1) (-1) in
  let single :=
    sectionalize_part Z.sub Z.eqb 2 2 10 st0 (range ++ extra) (-1) (-1) in
  map range_count (st_sections resumed ++ [st_section resumed]) = [2; 4]
  /\ map range_count (st_sections single ++ [st_section single]) = [4; 4].
Proof. split; reflexivity. Qed.

(** ** Degenerate boxes *)

(** A segment from a point to itself is a duplicate as soon as a
    coordinate minus itself is zero and [equals] takes zero for zero. *)
Lemma point_segment_classes
    (minus : coordinate_type -> coordinate_type -> coordinate_type)
    (equals : coordinate_type -> coordinate_type -> bool)
    (point_dimension DimensionCount : nat) (p : Point) :
  (forall a, minus a a = 0%Z) ->
  equals 0%Z 0%Z = true ->
  segment_classes minus equals point_dimension DimensionCount (Segment p p)
  = (true, replicate DimensionCount (-99)%Z).
Proof.
  intros Hself H0. rewrite segment_classes_spec.
  assert (Hd : forall d, seg_diff minus (Segment p p) d = 0%Z).
  { intros d. unfold seg_diff. simpl. apply Hself. }
  assert (Hnth : nth 0 (direction_vector minus DimensionCount (Segment p p)) 0%Z = 0%Z).
  { destruct DimensionCount as [| n]; [done |].
    rewrite nth_direction_vector by lia. by rewrite Hd. }
  assert (Hdup : is_duplicate minus equals point_dimension (Segment p p) = true).
  { unfold is_duplicate. apply forallb_forall. intros d _. by rewrite Hd. }
  by rewrite Hnth, Hdup.
Qed.

Lemma five_point_sections
    (minus : coordinate_type -> coordinate_type -> coordinate_type)
    (equals : coordinate_type -> coordinate_type -> bool)
    (point_dimension DimensionCount MaxCount : nat)
    (view : list Point) (ri mi : Z) :
  length view = 5 ->
  (forall j, j < 3 ->
     snd (segment_classes minus equals point_dimension DimensionCount (segment_at view j))
     <> snd (segment_classes minus equals point_dimension DimensionCount
               (segment_at view (S j)))) ->
  exists s0 s1 s2 s3,
    sectionalize_range minus equals point_dimension DimensionCount MaxCount
      closed view [] ri mi = [s0; s1; s2; s3]
    /\ covers minus equals point_dimension DimensionCount MaxCount view ri mi s0 0 1
    /\ covers minus equals point_dimension DimensionCount MaxCount view ri mi s1 1 2
    /\ covers minus equals point_dimension DimensionCount MaxCount view ri mi s2 2 3
    /\ covers minus equals point_dimension DimensionCount MaxCount view ri mi s3 3 4.
Proof.
  intros Hlen Hdiff.
  pose proof (sectionalize_range_tiles minus equals point_dimension DimensionCount
                MaxCount closed view ri mi) as Ht.
  change (closeable_view closed view) with view in Ht. rewrite Hlen in Ht.
  apply tiles_singletons in Ht as [Hl Hall].
  - destruct (sectionalize_range _ _ _ _ _ _ _ _ _ _)
      as [| s0 [| s1 [| s2 [| s3 [| s4 rest]]]]]; try discriminate Hl.
    exists s0, s1, s2, s3. split; [done |].
    split; [apply (Hall 0); done |].
    split; [apply (Hall 1); done |].
    split; [apply (Hall 2); done | apply (Hall 3); done].
  - intros j _ Hj. apply Hdiff. lia.
Qed.

Lemma sentinel_not_side (D : nat) (a b : Z) :
  1 <= D -> (a <> (-99)%Z) -> take D [a; b] <> replicate D (-99)%Z.
Proof. intros HD Ha H. destruct D as [| n]; [lia |]. simpl in H. congruence. Qed.

(** X16.  A box whose two corners coincide has four zero-length sides:
    when a coordinate minus itself is zero, [equals] takes zero for zero
    and [MaxCount] is at least 3, [sectionalize_box] appends a single
    section for it, a duplicate one holding all four segments. *)
Theorem point_box_single_section
    (minus : coordinate_type -> coordinate_type -> coordinate_type)
    (equals : coordinate_type -> coordinate_type -> bool)
    (DimensionCount MaxCount : nat) (b : Box) (sections : Sections)
    (Hself : forall a, minus a a = 0%Z)
    (Hzero : equals 0%Z 0%Z = true)
    (HMax : 3 <= MaxCount)
    (Hx : get 0 (min_corner b) = get 0 (max_corner b))
    (Hy : get 1 (min_corner b) = get 1 (max_corner b)) :
  exists s,
    sectionalize_box minus equals 2 DimensionCount MaxCount b sections
    = sections ++ [s]
    /\ count s = 4 /\ begin_index s = 0%Z /\ end_index s = 4%Z
    /\ duplicate s = true
    /\ directions s = replicate DimensionCount (-99)%Z.
Proof.
  unfold sectionalize_box. rewrite sectionalize_range_app.
  set (x := get 0 (min_corner b)). set (y := get 1 (min_corner b)).
  assert (Hpts : box_points b = box_ring x y x y).
  { unfold box_points, assign_box_corners, box_ring. fold x y.
    by rewrite <- Hx, <- Hy. }
  rewrite Hpts.
  assert (Hcls : forall j, j < 4 ->
            segment_classes minus equals 2 DimensionCount
              (segment_at (box_ring x y x y) j)
            = (true, replicate DimensionCount (-99)%Z)).
  { intros j Hj.
    destruct j as [| [| [| [| j]]]]; [| | | | lia];
      by apply point_segment_classes. }
  pose proof (sectionalize_range_tiles minus equals 2 DimensionCount MaxCount
                closed (box_ring x y x y) (-1) (-1)) as Ht.
  change (length (closeable_view closed (box_ring x y x y)) - 1) with 4 in Ht.
  change (closeable_view closed (box_ring x y x y)) with (box_ring x y x y) in Ht.
  pose proof (tiles_uniform minus equals 2 DimensionCount MaxCount
                (box_ring x y x y)
                (-1) (-1) (replicate DimensionCount (-99)%Z) 4 _ 0
                ltac:(intros j Hj; rewrite Hcls by lia; done) Ht 0) as Hfirst.
  destruct (sectionalize_range _ _ _ _ _ _ _ _ _ _) as [| s rest];
    simpl in Ht; [lia |].
  destruct Ht as (m & Hc & _ & Ht).
  specialize (Hfirst s eq_refl).
  replace (Nat.min (0 + 1 * S MaxCount) 4) with 4 in Hfirst by lia.
  simpl in Hfirst.
  assert (m = 4) as ->.
  { pose proof (cov_end Hc). pose proof (cov_end Hfirst). lia. }
  assert (rest = []) as ->.
  { destruct rest as [| t rest]; [done |]. simpl in Ht.
    destruct Ht as (m' & Hc' & _ & Ht).
    pose proof (tiles_le _ _ _ _ _ _ _ _ _ _ _ Ht).
    pose proof (cov_nonempty Hc'). lia. }
  exists s. split; [done |].
  pose proof (cov_first Hc) as F. rewrite Hcls in F by lia.
  injection F as Fd Fdir.
  rewrite (cov_count Hc), (cov_begin Hc), (cov_end Hc).
  repeat split; done.
Qed.

(** The box reduced to the point (3,3), exact coordinates. *)
Lemma point_box_single_section_witness :
  (forall a, (a - a)%Z = 0%Z) /\ (0 =? 0)%Z = true /\ 3 <= 10
  /\ exists s,
       sectionalize_box Z.sub Z.eqb 2 2 10 (MkBox [3; 3]%Z [3; 3]%Z) []
       = [] ++ [s]
       /\ count s = 4 /\ begin_index s = 0%Z /\ end_index s = 4%Z
       /\ duplicate s = true
       /\ directions s = replicate 2 (-99)%Z.
Proof.
  assert (HMax : 3 <= 10) by lia.
  split; [exact Z.sub_diag |]. split; [reflexivity |]. split; [exact HMax |].
  exact (point_box_single_section Z.sub Z.eqb 2 10 (MkBox [3; 3]%Z [3; 3]%Z) []
           Z.sub_diag eq_refl HMax eq_refl eq_refl).
Defined.

(** X17.  A flat box still gets four sections, one per side, each of one
    segment, when a coordinate minus itself is zero and [equals] takes
    zero for zero.  With equal x coordinates of the corners and a
    computed height that is not [equals] to zero, the two vertical sides
    alternate with the two zero-length sides, which are duplicate
    sections; with equal y coordinates and a computed width that is not
    zero it is the other way round.  The direction stored for a side is
    the sign of the difference the coordinate type computes along it. *)
Theorem flat_box_sections
    (minus : coordinate_type -> coordinate_type -> coordinate_type)
    (equals : coordinate_type -> coordinate_type -> bool)
    (DimensionCount MaxCount : nat) (b : Box) (sections : Sections)
    (HD : 1 <= DimensionCount <= 2)
    (Hself : forall a, minus a a = 0%Z)
    (Hzero : equals 0%Z 0%Z = true) :
  let x0 := get 0 (min_corner b) in
  let y0 := get 1 (min_corner b) in
  let x1 := get 0 (max_corner b) in
  let y1 := get 1 (max_corner b) in
  (x0 = x1 ->
   equals (minus y1 y0) 0%Z = false -> equals (minus y0 y1) 0%Z = false ->
   exists s0 s1 s2 s3,
     sectionalize_box minus equals 2 DimensionCount MaxCount b sections
     = sections ++ [s0; s1; s2; s3]
     /\ map count [s0; s1; s2; s3] = [1; 1; 1; 1]
     /\ map duplicate [s0; s1; s2; s3] = [false; true; false; true]
     /\ directions s0 = take DimensionCount [0%Z; Z.sgn (minus y1 y0)]
     /\ directions s2 = take DimensionCount [0%Z; Z.sgn (minus y0 y1)])
  /\ (y0 = y1 -> minus x1 x0 <> 0%Z -> minus x0 x1 <> 0%Z ->
      exists s0 s1 s2 s3,
        sectionalize_box minus equals 2 DimensionCount MaxCount b sections
        = sections ++ [s0; s1; s2; s3]
        /\ map count [s0; s1; s2; s3] = [1; 1; 1; 1]
        /\ map duplicate [s0; s1; s2; s3] = [true; false; true; false]
        /\ directions s1 = take DimensionCount [Z.sgn (minus x1 x0); 0%Z]
        /\ directions s3 = take DimensionCount [Z.sgn (minus x0 x1); 0%Z]).
Proof.
  intros x0 y0 x1 y1.
  assert (Hpts : box_points b = box_ring x0 y0 x1 y1) by reflexivity.
  assert (Hfinish : forall c0 c1 c2 c3 : bool * list Z,
    segment_classes minus equals 2 DimensionCount
      (segment_at (box_ring x0 y0 x1 y1) 0) = c0 ->
    segment_classes minus equals 2 DimensionCount
      (segment_at (box_ring x0 y0 x1 y1) 1) = c1 ->
    segment_classes minus equals 2 DimensionCount
      (segment_at (box_ring x0 y0 x1 y1) 2) = c2 ->
    segment_classes minus equals 2 DimensionCount
      (segment_at (box_ring x0 y0 x1 y1) 3) = c3 ->
    c0.2 <> c1.2 -> c1.2 <> c2.2 -> c2.2 <> c3.2 ->
    exists s0 s1 s2 s3,
      sectionalize_box minus equals 2 DimensionCount MaxCount b sections
      = sections ++ [s0; s1; s2; s3]
      /\ map count [s0; s1; s2; s3] = [1; 1; 1; 1]
      /\ map duplicate [s0; s1; s2; s3] = [c0.1; c1.1; c2.1; c3.1]
      /\ map directions [s0; s1; s2; s3] = [c0.2; c1.2; c2.2; c3.2]).
  { intros c0 c1 c2 c3 E0 E1 E2 E3 N01 N12 N23.
    destruct (five_point_sections minus equals 2 DimensionCount MaxCount
                (box_ring x0 y0 x1 y1) (-1) (-1) eq_refl)
      as (s0 & s1 & s2 & s3 & Heq & H0 & H1 & H2 & H3).
    { intros j Hj. destruct j as [| [| [| j]]]; [| | | lia].
      - by rewrite E0, E1.
      - by rewrite E1, E2.
      - by rewrite E2, E3. }
    exists s0, s1, s2, s3.
    split.
    { unfold sectionalize_box. by rewrite sectionalize_range_app, Hpts, Heq. }
    pose proof (cov_first H0) as F0. pose proof (cov_first H1) as F1.
    pose proof (cov_first H2) as F2. pose proof (cov_first H3) as F3.
    rewrite E0 in F0. rewrite E1 in F1. rewrite E2 in F2. rewrite E3 in F3.
    subst c0 c1 c2 c3. simpl.
    rewrite (cov_count H0), (cov_count H1), (cov_count H2), (cov_count H3).
    by rewrite F0, F1, F2, F3. }
  split.
  - intros Hx Hy Hy'.
    assert (Hne : forall a, take DimensionCount [0%Z; a]
                            <> replicate DimensionCount (-99)%Z).
    { intros a. apply sentinel_not_side; lia. }
    destruct (Hfinish _ _ _ _
                (box_side_0 minus equals DimensionCount x0 y0 x1 y1 HD Hself Hy)
                ltac:(rewrite <- Hx; by apply point_segment_classes)
                (box_side_2 minus equals DimensionCount x0 y0 x1 y1 HD Hself Hy')
                ltac:(rewrite <- Hx; by apply point_segment_classes))
      as (s0 & s1 & s2 & s3 & Heq & Hcnt & Hdup & Hdir); simpl; auto.
    exists s0, s1, s2, s3. simpl in Hdir. injection Hdir as D0 D1 D2 D3.
    done.
  - intros Hy Hx Hx'.
    assert (Hsx : forall u : Z,
              take DimensionCount [Z.sgn u; 0%Z]
              <> replicate DimensionCount (-99)%Z).
    { intros u. apply sentinel_not_side; [lia |].
      pose proof (Z.sgn_spec u). lia. }
    destruct (Hfinish _ _ _ _
                ltac:(rewrite <- Hy; by apply point_segment_classes)
                (box_side_1 minus equals DimensionCount x0 y0 x1 y1 HD Hself Hx)
                ltac:(rewrite <- Hy; by apply point_segment_classes)
                (box_side_3 minus equals DimensionCount x0 y0 x1 y1 HD Hself Hx'))
      as (s0 & s1 & s2 & s3 & Heq & Hcnt & Hdup & Hdir); simpl.
    + intros H. symmetry in H. revert H. by apply Hsx.
    + by apply Hsx.
    + intros H. symmetry in H. revert H. by apply Hsx.
    + exists s0, s1, s2, s3. simpl in Hdir. injection Hdir as D0 D1 D2 D3.
      done.
Qed.

(** The box from (3,0) to (3,7) has no width; exact coordinates. *)
Lemma flat_box_sections_witness :
  1 <= 2 <= 2 /\ (forall a, (a - a)%Z = 0%Z) /\ (0 =? 0)%Z = true
  /\ exists s0 s1 s2 s3,
       sectionalize_box Z.sub Z.eqb 2 2 10 (MkBox [3; 0]%Z [3; 7]%Z) []
       = [] ++ [s0; s1; s2; s3]
       /\ map count [s0; s1; s2; s3] = [1; 1; 1; 1]
       /\ map duplicate [s0; s1; s2; s3] = [false; true; false; true]
       /\ directions s0 = take 2 [0%Z; Z.sgn (7 - 0)]
       /\ directions s2 = take 2 [0%Z; Z.sgn (0 - 7)].
Proof.
  assert (HD : 1 <= 2 <= 2) by lia.
  split; [exact HD |]. split; [exact Z.sub_diag |]. split; [reflexivity |].
  exact (proj1 (flat_box_sections Z.sub Z.eqb 2 10 (MkBox [3; 0]%Z [3; 7]%Z) []
                  HD Z.sub_diag eq_refl) eq_refl eq_refl eq_refl).
Defined.

(** With [int] coordinates the height of the flat box from (3, [INT_MIN])
    to (3, [INT_MAX]) overflows: the side going up is stored as going
    down, and the other way round. *)
Example int_flat_box_directions :
  map directions
    (sectionalize_box int_minus Z.eqb 2 2 10
       (MkBox [3%Z; INT_MIN] [3%Z; INT_MAX]) [])
  = [[0; -1]; [-99; -99]; [0; 1]; [-99; -99]]%Z.
Proof. reflexivity. Qed.

(** ** Moving the geometry *)

Section Translation.

Variable minus : coordinate_type -> coordinate_type -> coordinate_type.
Variable equals : coordinate_type -> coordinate_type -> bool.
Variable point_dimension : nat.
Variable DimensionCount : nat.
Variable MaxCount : nat.
Variables ring_index' multi_index' : Z.
Variable v : Point.
Hypothesis tracked : DimensionCount <= point_dimension.
Hypothesis shift : forall a b c, minus (a + c)%Z (b + c)%Z = minus a b.

Abbreviation move := (translate point_dimension v).

Lemma seg_diff_translate p q d :
  d < point_dimension ->
  seg_diff minus (Segment (move p) (move q)) d = seg_diff minus (Segment p q) d.
Proof using shift.
  clear tracked. intros Hd. unfold seg_diff, translate. simpl.
  rewrite !get_map_seq by done. apply shift.
Qed.

Lemma segment_classes_translate p q :
  segment_classes minus equals point_dimension DimensionCount
    (Segment (move p) (move q))
  = segment_classes minus equals point_dimension DimensionCount (Segment p q).
Proof using tracked shift.
  rewrite !segment_classes_spec.
  assert (Hdv : direction_vector minus DimensionCount (Segment (move p) (move q))
                = direction_vector minus DimensionCount (Segment p q)).
  { unfold direction_vector. apply map_ext_in. intros d Hd%in_seq.
    rewrite seg_diff_translate by lia. done. }
  assert (Hdup : is_duplicate minus equals point_dimension (Segment (move p) (move q))
                 = is_duplicate minus equals point_dimension (Segment p q)).
  { unfold is_duplicate. apply eq_true_iff_eq. rewrite !forallb_forall.
    split; intros H d Hd; specialize (H d Hd); apply in_seq in Hd;
      [rewrite <- seg_diff_translate by lia | rewrite seg_diff_translate by lia];
      done. }
  by rewrite Hdv, Hdup.
Qed.

Lemma part_step_translate n p q st st' :
  forget_boxes st = forget_boxes st' ->
  forget_boxes
    (part_step minus equals point_dimension DimensionCount MaxCount n
       ring_index' multi_index' (move p) (move q) st)
  = forget_boxes
      (part_step minus equals point_dimension DimensionCount MaxCount n
         ring_index' multi_index' p q st').
Proof using tracked shift.
  intros H. unfold part_step. rewrite segment_classes_translate.
  destruct (segment_classes _ _ _ _ _) as [dup cls].
  destruct st as [ss sec idx ndi], st' as [ss' sec' idx' ndi'].
  pose proof (f_equal st_sections H) as Hss.
  pose proof (f_equal st_section H) as Hsec.
  pose proof (f_equal st_index H) as Hidx.
  pose proof (f_equal st_ndi H) as Hndi.
  cbn [forget_boxes st_sections st_section st_index st_ndi] in Hss, Hsec, Hidx, Hndi.
  subst idx' ndi'. clear H.
  destruct sec as [i1 d1 r1 m1 b1 bi1 e1 c1 rc1 du1 n1],
           sec' as [i2 d2 r2 m2 b2 bi2 e2 c2 rc2 du2 n2].
  unfold forget_box in Hsec. cbn in Hsec. injection Hsec as -> -> -> -> -> -> -> -> -> ->.
  unfold flush_condition, forget_boxes.
  cbn [st_sections st_section st_index st_ndi count directions].
  destruct (_ && _); cbn [st_sections st_section st_index st_ndi];
    rewrite ?map_app, Hss; [reflexivity |].
  cbn [count]. by destruct (c2 =? 0).
Qed.

Lemma part_loop_translate n rest : forall p st st',
  forget_boxes st = forget_boxes st' ->
  forget_boxes
    (part_loop minus equals point_dimension DimensionCount MaxCount n
       ring_index' multi_index' (move p) (map move rest) st)
  = forget_boxes
      (part_loop minus equals point_dimension DimensionCount MaxCount n
         ring_index' multi_index' p rest st').
Proof using tracked shift.
  induction rest as [| q rest IH]; intros p st st' H; simpl; [done |].
  apply IH. by apply part_step_translate.
Qed.

Lemma closeable_view_map (f : Point -> Point) Closure range :
  closeable_view Closure (map f range) = map f (closeable_view Closure range).
Proof.
  destruct Closure; [| done]. destruct range as [| p range]; [done |].
  simpl. by rewrite map_app.
Qed.

End Translation.

(** X18.  When the tracked dimensions are dimensions of the point type
    and the subtraction of the coordinate type gives the same difference
    for two coordinates and for the two moved by the same amount (as the
    exact and the wrapped subtraction do), the sections of a range do not
    depend on where the range lies: moving every point by the same vector
    changes the bounding boxes only; index ranges, counts, directions,
    duplicate flags and all other fields stay the same. *)
Theorem sections_translation_invariant
    (minus : coordinate_type -> coordinate_type -> coordinate_type)
    (equals : coordinate_type -> coordinate_type -> bool)
    (point_dimension DimensionCount MaxCount : nat)
    (Closure : closure_selector) (range : list Point) (sections : Sections)
    (ring_index' multi_index' : Z) (v : Point)
    (Htracked : DimensionCount <= point_dimension)
    (Hshift : forall a b c, minus (a + c)%Z (b + c)%Z = minus a b) :
  map forget_box
    (sectionalize_range minus equals point_dimension DimensionCount MaxCount
       Closure (map (translate point_dimension v) range) sections
       ring_index' multi_index')
  = map forget_box
      (sectionalize_range minus equals point_dimension DimensionCount MaxCount
         Closure range sections ring_index' multi_index').
Proof.
  unfold sectionalize_range. rewrite closeable_view_map, length_map.
  destruct (length (closeable_view Closure range) =? 0); [done |].
  destruct (length (closeable_view Closure range) =? 1); [done |].
  unfold sectionalize_part. cbn [st_index st_ndi st_sections st_section].
  rewrite length_map.
  destruct (Z.of_nat (length (closeable_view Closure range)) <=? 0)%Z; [done |].
  simpl (Z.to_nat 0). rewrite !drop_0. simpl (0 =? 0)%Z. cbn iota.
  destruct (closeable_view Closure range) as [| p rest]; [done |].
  cbn [map].
  pose proof (part_loop_translate minus equals point_dimension DimensionCount MaxCount
                ring_index' multi_index' v Htracked Hshift
                (length (p :: rest)) rest p
                _ _ (eq_refl (forget_boxes
                       {| st_sections := sections;
                          st_section := section_type DimensionCount;
                          st_index := 0; st_ndi := 0 |}))) as H.
  pose proof (f_equal st_sections H) as Hss.
  pose proof (f_equal st_section H) as Hsec.
  cbn [forget_boxes st_sections st_section] in Hss, Hsec.
  pose proof (f_equal count Hsec) as Hcount.
  cbn [forget_box count] in Hcount. rewrite Hcount.
  destruct (0 <? _); [| done].
  by rewrite !map_app, Hss; cbn [map]; rewrite Hsec.
Qed.

(** The square ring moved by (100, -7), exact coordinates. *)
Lemma sections_translation_invariant_witness :
  2 <= 2
  /\ (forall a b c : Z, (a + c - (b + c) = a - b)%Z)
  /\ map forget_box
       (sectionalize_range Z.sub Z.eqb 2 2 10 closed
          (map (translate 2 [100; -7]%Z) square) [] (-1) (-1))
     = map forget_box
         (sectionalize_range Z.sub Z.eqb 2 2 10 closed square [] (-1) (-1)).
Proof.
  assert (H : 2 <= 2) by lia.
  assert (Hshift : forall a b c : Z, (a + c - (b + c) = a - b)%Z)
    by (intros a b c; lia).
  split; [exact H |]. split; [exact Hshift |].
  exact (sections_translation_invariant Z.sub Z.eqb 2 2 10 closed square []
           (-1) (-1) [100; -7]%Z H Hshift).
Defined.

(** The wrapped subtraction of [int] does not see a common shift
    either. *)
Lemma int_minus_shift (a b c : Z) :
  int_minus (a + c)%Z (b + c)%Z = int_minus a b.
Proof. unfold int_minus. f_equal. f_equal. lia. Qed.
